(** * OrangePlanManager: the authentication and authorisation core

    A shallow embedding of the FastAPI backend under [backend/app]:
    [utilities/encoders.py], [utilities/exceptions.py],
    [utilities/dependencies.py], [routers/auth.py] and [routers/users.py],
    over the table declared in [models/user_models.py].

    Conventions.
    - A Python [str] is a Rocq [string]; each character stands for one code
      point, so [String.length] is Python's [len].
    - A raised exception is the [Raise] outcome of a computation; handlers
      run in the monad [M], which threads the database table, the log and
      the calls made to the password context.
    - The libraries the code calls (PyJWT, passlib, the SQL session) are
      modelled by what the code observes of them: see [jwt], [passlib] and
      the [session_*] operations. *)

From Stdlib Require Import ZArith String Ascii List Bool Lia.
From stdpp Require Import base option list strings pretty gmap.

Import ListNotations.
Local Open Scope string_scope.
Local Open Scope Z_scope.

(* ===================================================================== *)
(** ** Exceptions and outcomes *)
(* ===================================================================== *)

(** [fastapi.status] *)
Module status.
Definition HTTP_400_BAD_REQUEST : Z := 400.
Definition HTTP_401_UNAUTHORIZED : Z := 401.
Definition HTTP_403_FORBIDDEN : Z := 403.
Definition HTTP_404_NOT_FOUND : Z := 404.
Definition HTTP_409_CONFLICT : Z := 409.
Definition HTTP_423_LOCKED : Z := 423.
End status.

(** The exceptions that can leave a handler.  [HTTPException] is FastAPI's;
    [UnknownHashError] and [PasswordValueError] are passlib's (both are
    [ValueError]s); [SQLAlchemyError] stands for any error the database
    raises when a flush violates a constraint of the table. *)
Inductive exn : Type :=
| HTTPException (status_code : Z) (detail : string) (headers : list (string * string))
| UnknownHashError
| MalformedHashError
| PasswordValueError
| SQLAlchemyError (reason : string).

Inductive result (A : Type) : Type :=
| Ok (a : A)
| Raise (e : exn).

Arguments Ok {A} a.
Arguments Raise {A} e.

(** [utilities/exceptions.py] *)
Definition CREDENTIALS_EXCEPTION : exn :=
  HTTPException status.HTTP_401_UNAUTHORIZED "Could not validate credentials"
                [("WWW-Authenticate", "Bearer")].

Definition ADMIN_EXCEPTION : exn :=
  HTTPException status.HTTP_401_UNAUTHORIZED "Require admin privileges."
                [("WWW-Authenticate", "Bearer")].

Definition TOKEN_EXPIRE_EXCEPTION : exn :=
  HTTPException status.HTTP_401_UNAUTHORIZED "Token expired."
                [("WWW-Authenticate", "Bearer")].

(* ===================================================================== *)
(** ** Data model: [models/user_models.py] *)
(* ===================================================================== *)

Inductive RoleType : Type := ADMIN | USER | TESTER.

(** [RoleType] is a [str] enum: a member compares equal to its value. *)
Definition role_value (r : RoleType) : string :=
  match r with
  | ADMIN => "Administrateur"
  | USER => "Utilisateur"
  | TESTER => "Testeur"
  end.

(** A row of the [user] table, with the declared column types.  Timestamps
    are seconds since the epoch. *)
Record User : Type := mkUser {
  id : Z;
  username : string;
  email : string;
  first_name : option string;
  last_name : option string;
  hashed_password : string;
  role : RoleType;
  is_active : bool;
  created_at : Z;
  updated_at : Z
}.

(** The columns [User.username] and [User.email], as queries name them. *)
Definition User_username (u : User) : string := username u.
Definition User_email (u : User) : string := email u.

Record UserCreate : Type := mkUserCreate {
  uc_username : string;
  uc_email : string;
  uc_first_name : option string;
  uc_last_name : option string;
  uc_password : string
}.

(** A field of a request body whose every field is optional: left out of
    the body, sent as [null], or sent with a value.
    [model_dump(exclude_unset=True)] keeps the last two. *)
Inductive field (A : Type) : Type :=
| Unset
| Null
| Val (a : A).

Arguments Unset {A}.
Arguments Null {A}.
Arguments Val {A} a.

Record UserUpdate : Type := mkUserUpdate {
  uu_username : field string;
  uu_email : field string;
  uu_first_name : field string;
  uu_last_name : field string;
  uu_old_password : field string;
  uu_new_password : field string;
  uu_is_active : field bool;
  uu_role : field string
}.

(** The dictionary [user_update_data] of [update_user]: the dumped body,
    to which the handler may add the key ["hashed_password"]. *)
Record UpdateData : Type := mkUpdateData {
  body : UserUpdate;
  d_hashed_password : option string
}.

(** [d.get(key)] on a string entry, and Python's truth value of the result:
    a missing key, [None] and the empty string are all false. *)
Definition dict_get {A} (f : field A) : option A :=
  match f with
  | Val a => Some a
  | Unset | Null => None
  end.

Definition truthy (o : option string) : bool :=
  match o with
  | Some s => negb (String.eqb s "")
  | None => false
  end.

(* ===================================================================== *)
(** ** The collaborators *)
(* ===================================================================== *)

(** *** passlib

    [CryptContext(schemes=["bcrypt"], deprecated="auto")].  The context
    first identifies, among its schemes, the one a hash string belongs to,
    and raises [UnknownHashError] when there is none; only then does the
    scheme parse the string and compare digests.  The scheme itself (its
    salt, cost and digest) stays abstract. *)
Module passlib.

Record CryptContext : Type := mkCryptContext {
  scheme_identify : string -> bool;
  scheme_verify : string -> string -> result bool;
  scheme_hash : string -> result string
}.

Definition verify (ctx : CryptContext) (secret hash : string) : result bool :=
  if scheme_identify ctx hash
  then scheme_verify ctx secret hash
  else Raise UnknownHashError.

Definition hash (ctx : CryptContext) (secret : string) : result string :=
  scheme_hash ctx secret.

End passlib.

(** *** PyJWT

    A token string is either three well-formed segments, seen here as the
    header's algorithm, the claims and the key its signature was computed
    with, or anything else.  The signature is an ideal HMAC: it verifies
    under a key exactly when HMAC works with the same key block for both
    keys (a key over 64 bytes is replaced by its digest, a shorter one is
    padded with zero bytes, so distinct key strings can be the same key).
    Claims are strings and integers.  The registered claims are validated
    as the library does with no audience, issuer or subject asked for:
    [iat] and [nbf], then [exp], then [aud], [sub] and [jti] (the last two
    since PyJWT 2.10). *)
Inductive jval : Type :=
| JStr (s : string)
| JInt (n : Z).

Module jwt.

Inductive token : Type :=
| Signed (alg : string) (payload : gmap string jval) (signing_key : string)
| Garbled (raw : string).

(** All are subclasses of [InvalidTokenError]. *)
Inductive error : Type :=
| ExpiredSignatureError
| InvalidSignatureError
| InvalidAlgorithmError
| DecodeError
| ImmatureSignatureError
| InvalidIssuedAtError
| InvalidAudienceError
| InvalidSubjectError
| InvalidJTIError.

Definition encode (payload : gmap string jval) (key algorithm : string) : token :=
  Signed algorithm payload key.

(** [int(payload[name])]: the library converts a date claim with Python's
    [int], given here as [int_of_str] on strings ([None] when it raises
    [ValueError]). *)
Definition numeric_date (int_of_str : string -> option Z) (v : jval) : option Z :=
  match v with
  | JInt n => Some n
  | JStr s => int_of_str s
  end.

(** Python's truth value of a claim. *)
Definition claim_bool (v : jval) : bool :=
  match v with
  | JStr s => negb (String.eqb s "")
  | JInt n => negb (n =? 0)
  end.

Section Claims.

Variable int_of_str : string -> option Z.
Variable current_time : Z.
Variable payload : gmap string jval.

Definition validate_iat : option error :=
  match payload !! "iat" with
  | None => None
  | Some v =>
      match numeric_date int_of_str v with
      | None => Some InvalidIssuedAtError
      | Some iat => if current_time <? iat then Some ImmatureSignatureError else None
      end
  end.

Definition validate_nbf : option error :=
  match payload !! "nbf" with
  | None => None
  | Some v =>
      match numeric_date int_of_str v with
      | None => Some DecodeError
      | Some nbf => if current_time <? nbf then Some ImmatureSignatureError else None
      end
  end.

Definition validate_exp : option error :=
  match payload !! "exp" with
  | None => None
  | Some v =>
      match numeric_date int_of_str v with
      | None => Some DecodeError
      | Some exp => if exp <=? current_time then Some ExpiredSignatureError else None
      end
  end.

(** No audience is asked for: a token that names one is refused. *)
Definition validate_aud : option error :=
  match payload !! "aud" with
  | None => None
  | Some v => if claim_bool v then Some InvalidAudienceError else None
  end.

Definition validate_sub : option error :=
  match payload !! "sub" with
  | None | Some (JStr _) => None
  | Some (JInt _) => Some InvalidSubjectError
  end.

Definition validate_jti : option error :=
  match payload !! "jti" with
  | None | Some (JStr _) => None
  | Some (JInt _) => Some InvalidJTIError
  end.

(** The checks run in this order and the first failure is raised. *)
Definition validate_claims : option error :=
  match validate_iat with
  | Some e => Some e
  | None =>
  match validate_nbf with
  | Some e => Some e
  | None =>
  match validate_exp with
  | Some e => Some e
  | None =>
  match validate_aud with
  | Some e => Some e
  | None =>
  match validate_sub with
  | Some e => Some e
  | None => validate_jti
  end end end end end.

End Claims.

(** The algorithm is checked against the allowed list, then the
    signature, then the claims. *)
Definition decode (hmac_key : string -> string) (int_of_str : string -> option Z)
           (current_time : Z) (tok : token) (key : string) (algorithms : list string)
  : error + gmap string jval :=
  match tok with
  | Garbled _ => inl DecodeError
  | Signed alg payload signing_key =>
      if negb (existsb (String.eqb alg) algorithms) then inl InvalidAlgorithmError
      else if negb (String.eqb (hmac_key signing_key) (hmac_key key))
           then inl InvalidSignatureError
      else match validate_claims int_of_str current_time payload with
           | Some e => inl e
           | None => inr payload
           end
  end.

End jwt.

(** *** The process environment of one request *)
Record Env : Type := mkEnv {
  now : Z;                                 (* datetime.now(timezone.utc) *)
  SECRET_KEY : string;                     (* environ["SECRET_KEY"] *)
  pwd_context : passlib.CryptContext;
  coerce_role : string -> option RoleType; (* the Enum column's conversion *)
  int_of_str : string -> option Z;         (* Python's int() on a str *)
  hmac_key : string -> string              (* the key block HMAC-SHA256 works with *)
}.

(* ===================================================================== *)
(** ** The handler monad *)
(* ===================================================================== *)

(** What a request leaves behind besides its response: log lines and the
    calls made to the password context. *)
Inductive event : Type :=
| Log (level message : string)
| PwdVerify (secret hash : string)
| PwdHash (secret : string).

Record World : Type := mkWorld {
  user_table : list User;
  user_id_seq : Z;
  events : list event
}.

Definition M (A : Type) : Type := World -> result A * World.

Definition ret {A} (a : A) : M A := fun w => (Ok a, w).

Definition raise {A} (e : exn) : M A := fun w => (Raise e, w).

Definition bind {A B} (m : M A) (k : A -> M B) : M B :=
  fun w =>
    match m w with
    | (Ok a, w') => k a w'
    | (Raise e, w') => (Raise e, w')
    end.

Notation "x <- m ;; k" := (bind m (fun x => k))
  (at level 100, m at next level, right associativity).
Notation "m ;; k" := (bind m (fun _ => k))
  (at level 100, right associativity).

Definition lift {A} (r : result A) : M A := fun w => (r, w).

Definition emit (e : event) : M unit :=
  fun w => (Ok tt, mkWorld (user_table w) (user_id_seq w) (events w ++ [e])).

Definition logger_warning (message : string) : M unit := emit (Log "WARNING" message).
Definition logger_info (message : string) : M unit := emit (Log "INFO" message).

Definition outcome {A} (m : M A) (w : World) : result A := fst (m w).
Definition after {A} (m : M A) (w : World) : World := snd (m w).

(** Sequencing of plain outcomes, for the steps of a flush. *)
Definition and_then {A B} (r : result A) (k : A -> result B) : result B :=
  match r with
  | Ok a => k a
  | Raise e => Raise e
  end.

(* ===================================================================== *)
(** ** The SQL session over the [user] table *)
(* ===================================================================== *)

(** A Python value used as a query parameter or read from a decoded
    payload: annotations such as [username: str] exclude nothing at run
    time, and [payload.get("sub")] can be [None] or an integer. *)
Inductive pyobj : Type :=
| PyNone
| PyStr (s : string)
| PyInt (n : Z).

Definition py_str (o : pyobj) : string :=
  match o with
  | PyNone => "None"
  | PyStr s => s
  | PyInt n => pretty n
  end.

Definition payload_get (payload : gmap string jval) (key : string) : pyobj :=
  match payload !! key with
  | None => PyNone
  | Some (JStr s) => PyStr s
  | Some (JInt n) => PyInt n
  end.

(** [select(User).where(column == value)] on a VARCHAR column: [None]
    compiles to [IS NULL], which no row of a NOT NULL column satisfies; an
    integer has no equality operator with VARCHAR, and the statement
    fails. *)
Definition where_eq (column : User -> string) (value : pyobj) : result (User -> bool) :=
  match value with
  | PyStr s => Ok (fun u => String.eqb (column u) s)
  | PyNone => Ok (fun _ => false)
  | PyInt _ => Raise (SQLAlchemyError "operator does not exist: character varying = integer")
  end.

(** [session.exec(query).first()] *)
Definition session_first (query : result (User -> bool)) : M (option User) :=
  fun w =>
    match query with
    | Ok p => (Ok (List.find p (user_table w)), w)
    | Raise e => (Raise e, w)
    end.

(** [session.get(User, user_id)] *)
Definition session_get (user_id : Z) : M (option User) :=
  fun w => (Ok (List.find (fun u => id u =? user_id) (user_table w)), w).

(** The columns are VARCHAR(100) ([max_length=100]). *)
Definition fits (s : string) : bool := (String.length s <=? 100)%nat.

Definition fits_opt (o : option string) : bool :=
  match o with
  | Some s => fits s
  | None => true
  end.

(** The lengths of the columns of a row. *)
Definition row_fits (row : User) : bool :=
  fits (username row) && fits (email row)
  && fits_opt (first_name row) && fits_opt (last_name row).

(** What the table enforces on a row about to be written: the lengths, and
    the unique index on [username] (the index on [email] is not unique). *)
Definition table_accepts (tbl : list User) (row : User) : bool :=
  fits (username row) && fits (email row)
  && fits_opt (first_name row) && fits_opt (last_name row)
  && negb (existsb (fun r => negb (id r =? id row) && String.eqb (username r) (username row)) tbl).

Definition constraint_violation : exn :=
  SQLAlchemyError "constraint violation".

(** Writing a NOT NULL column, a nullable one, and the Enum column. *)
Definition column {A} (old : A) (f : field A) : result A :=
  match f with
  | Unset => Ok old
  | Null => Raise constraint_violation
  | Val a => Ok a
  end.

Definition nullable_column {A} (old : option A) (f : field A) : option A :=
  match f with
  | Unset => old
  | Null => None
  | Val a => Some a
  end.

Definition is_set {A} (f : field A) : bool :=
  match f with
  | Unset => false
  | Null | Val _ => true
  end.

(** [sqlmodel_update] assigns the keys of the dictionary that are fields of
    [User]; ["old_password"] and ["new_password"] are not.  An object with an
    assigned attribute is dirty, and the [before_flush] hook of
    [db/session.py] stamps [updated_at] on dirty objects. *)
Definition assigns (d : UpdateData) : bool :=
  is_set (uu_username (body d)) || is_set (uu_email (body d))
  || is_set (uu_first_name (body d)) || is_set (uu_last_name (body d))
  || is_set (uu_is_active (body d)) || is_set (uu_role (body d))
  || match d_hashed_password d with Some _ => true | None => false end.

Section Flush.

Variable env : Env.

Definition role_column (old : RoleType) (f : field string) : result RoleType :=
  match f with
  | Unset => Ok old
  | Null => Raise constraint_violation
  | Val s =>
      match coerce_role env s with
      | Some r => Ok r
      | None => Raise constraint_violation
      end
  end.

(** The row that [user.sqlmodel_update(d)] followed by a flush writes. *)
Definition sqlmodel_update (user : User) (d : UpdateData) : result User :=
  and_then (column (username user) (uu_username (body d))) (fun username' =>
  and_then (column (email user) (uu_email (body d))) (fun email' =>
  and_then (column (is_active user) (uu_is_active (body d))) (fun is_active' =>
  and_then (role_column (role user) (uu_role (body d))) (fun role' =>
  Ok (mkUser (id user) username' email'
             (nullable_column (first_name user) (uu_first_name (body d)))
             (nullable_column (last_name user) (uu_last_name (body d)))
             (match d_hashed_password d with
              | Some h => h
              | None => hashed_password user
              end)
             role' is_active' (created_at user)
             (if assigns d then now env else updated_at user)))))).

(** The UPDATE of the row with the primary key of [row].  The list stands
    for the content of the table, not for an order of its rows: the
    handlers select without ORDER BY. *)
Definition replace_row (row : User) (tbl : list User) : list User :=
  List.map (fun r => if id r =? id row then row else r) tbl.

(** [user.sqlmodel_update(d); session.add(user); session.commit();
    session.refresh(user)] on a persistent object: the row is rewritten, or
    the commit fails and the table is as before. *)
Definition session_update (user : User) (d : UpdateData) : M User :=
  fun w =>
    match sqlmodel_update user d with
    | Raise e => (Raise e, w)
    | Ok row =>
        if table_accepts (user_table w) row
        then (Ok row, mkWorld (replace_row row (user_table w)) (user_id_seq w) (events w))
        else (Raise constraint_violation, w)
    end.

(** The constructor call of [create_user]: the defaults of the model
    fill [role], [is_active] and the two timestamps; the password key of
    the dump is not a field of the table. *)
Definition new_user (user_data : UserCreate) (hashed : string) (new_id : Z) : User :=
  mkUser new_id (uc_username user_data) (uc_email user_data)
         (uc_first_name user_data) (uc_last_name user_data)
         hashed USER true (now env) (now env).

(** [session.add(user_db); session.commit(); session.refresh(user_db)] on
    a new object.  A value too long for its column is refused before the
    default of the primary key is computed, and the sequence stays; when
    the unique index refuses the row, the sequence has advanced. *)
Definition session_insert (user_data : UserCreate) (hashed : string) : M User :=
  fun w =>
    let row := new_user user_data hashed (user_id_seq w) in
    if table_accepts (user_table w) row
    then (Ok row, mkWorld (user_table w ++ [row]) (user_id_seq w + 1) (events w))
    else (Raise constraint_violation,
          mkWorld (user_table w)
                  (if row_fits row then user_id_seq w + 1 else user_id_seq w)
                  (events w)).

End Flush.

(** Python's truth value of a query parameter or claim: [None], the empty
    string and zero are false. *)
Definition py_bool (o : pyobj) : bool :=
  match o with
  | PyNone => false
  | PyStr s => negb (String.eqb s "")
  | PyInt n => negb (n =? 0)
  end.


(** [session.delete(user); session.commit()]: the row of that primary key
    leaves the table. *)
Definition session_delete (user : User) : M unit :=
  fun w =>
    (Ok tt,
     mkWorld (List.filter (fun r => negb (id r =? id user)) (user_table w))
             (user_id_seq w) (events w)).

(** [session.add(obj); session.commit()] on a new object whose columns are
    given but for the primary key, which the sequence supplies; the
    sequence moves as in [session_insert]. *)
Definition session_add_commit (row_of_id : Z -> User) : M unit :=
  fun w =>
    let row := row_of_id (user_id_seq w) in
    if table_accepts (user_table w) row
    then (Ok tt, mkWorld (user_table w ++ [row]) (user_id_seq w + 1) (events w))
    else (Raise constraint_violation,
          mkWorld (user_table w)
                  (if row_fits row then user_id_seq w + 1 else user_id_seq w)
                  (events w)).

(* ===================================================================== *)
(** ** [utilities/encoders.py] *)
(* ===================================================================== *)

Module encoders.

Definition ALGORITHM : string := "HS256".

Section WithEnv.

Variable env : Env.

Definition verify_password (plain_password hashed_password : string) : M bool :=
  emit (PwdVerify plain_password hashed_password);;
  lift (passlib.verify (pwd_context env) plain_password hashed_password).

Definition hash_password (password : string) : M string :=
  emit (PwdHash password);;
  lift (passlib.hash (pwd_context env) password).

Definition encode_token (data : gmap string jval) (expires_delta : Z) : jwt.token :=
  let to_encode := data in
  let expire := now env + expires_delta in
  let to_encode := <["exp" := JInt expire]> to_encode in
  jwt.encode to_encode (SECRET_KEY env) ALGORITHM.

Definition decode_token (token : jwt.token) : M (gmap string jval) :=
  match jwt.decode (hmac_key env) (int_of_str env) (now env) token (SECRET_KEY env)
                   [ALGORITHM] with
  | inr payload => ret payload
  | inl jwt.ExpiredSignatureError => raise TOKEN_EXPIRE_EXCEPTION
  | inl _ => raise CREDENTIALS_EXCEPTION
  end.

End WithEnv.

End encoders.

(** [datetime.timedelta], in seconds. *)
Definition timedelta_minutes (m : Z) : Z := m * 60.
Definition timedelta_days (d : Z) : Z := d * 86400.

(** Modelled from the spec: [app/schemas/auth_schemas.py] is not among the
    sources.  The login and refresh responses are
    [{access_token, refresh_token, token_type}] and the refresh request
    carries a [refresh_token]. *)
Module auth_schemas.

Record Token : Type := mkToken {
  access_token : jwt.token;
  refresh_token : jwt.token;
  token_type : string
}.

Record RefreshToken : Type := mkRefreshToken {
  rt_refresh_token : jwt.token
}.

End auth_schemas.

(** An instance of a class that defines neither [__bool__] nor [__len__]
    is true: the tests [if not user] on a loaded [User] never fire. *)
Definition object_truth (u : User) : bool := true.

(* ===================================================================== *)
(** ** [utilities/dependencies.py] *)
(* ===================================================================== *)

Module dependencies.

Definition ACCESS_TOKEN_EXPIRE_MINUTES : Z := 15.
Definition REFRESH_TOKEN_EXPIRE_DAYS : Z := 7.

Definition get_user (username : pyobj) : M User :=
  user <- session_first (where_eq User_username username);;
  match user with
  | None =>
      logger_warning ("User not found: " ++ py_str username);;
      raise (HTTPException status.HTTP_404_NOT_FOUND "User not found" [])
  | Some user => ret user
  end.

(** [re.search] of a one-character class: a match object (true) when
    some character of the string is in the class, [None] otherwise. *)
Definition re_search (class : ascii -> bool) (p : string) : bool :=
  existsb class (list_ascii_of_string p).

Definition in_range (lo hi c : ascii) : bool :=
  ((nat_of_ascii lo <=? nat_of_ascii c) && (nat_of_ascii c <=? nat_of_ascii hi))%nat.

Definition in_set (chars : string) (c : ascii) : bool :=
  existsb (Ascii.eqb c) (list_ascii_of_string chars).

Definition validation_rules : list ((string -> bool) * string) :=
  [ (fun p => (6 <=? String.length p)%nat,
     "Password must be at least 6 characters long.");
    (fun p => re_search (in_range "A" "Z") p,
     "Password must contain at least one uppercase letter.");
    (fun p => re_search (in_range "a" "z") p,
     "Password must contain at least one lowercase letter.");
    (fun p => re_search (in_range "0" "9") p,
     "Password must contain at least one number.");
    (fun p => re_search (in_set "@$!%*?&#") p,
     "Password must contain at least one special character.") ].

(** The [for rule, error_message in validation_rules] loop. *)
Fixpoint check_rules (rules : list ((string -> bool) * string)) (password : string) : M unit :=
  match rules with
  | [] => ret tt
  | (rule, error_message) :: rest =>
      if negb (rule password)
      then
        logger_warning ("Password validation failed: " ++ error_message);;
        raise (HTTPException status.HTTP_400_BAD_REQUEST error_message [])
      else check_rules rest password
  end.

Definition validate_password (password : string) : M unit :=
  check_rules validation_rules password.

Definition get_current_active_user (current_user : User) : M User :=
  if negb (is_active current_user)
  then
    logger_warning ("Inactive user access attempt: " ++ username current_user);;
    raise (HTTPException status.HTTP_400_BAD_REQUEST "Inactive user" [])
  else ret current_user.

Record RoleChecker : Type := mkRoleChecker {
  allowed_roles : list string
}.

(** [x in self.allowed_roles], by string equality. *)
Definition contains (l : list string) (x : string) : bool :=
  existsb (String.eqb x) l.

(** [RoleChecker.__call__] *)
Definition RoleChecker_call (self : RoleChecker) (user : User) : M User :=
  if contains (allowed_roles self) (role_value (role user))
     || contains (allowed_roles self) "*"
  then ret user
  else
    logger_warning ("Unauthorized access attempt by user: " ++ username user);;
    raise (HTTPException status.HTTP_403_FORBIDDEN "You don't have enough permissions" []).

Section WithEnv.

Variable env : Env.

Definition authenticate_user (username password : string) : M User :=
  user <- get_user (PyStr username);;
  if negb (is_active user)
  then
    logger_warning ("Inactive user login attempt: " ++ username);;
    raise (HTTPException status.HTTP_423_LOCKED "Inactive user." [])
  else
    ok <- encoders.verify_password env password (hashed_password user);;
    if negb ok
    then
      logger_warning ("Invalid password attempt for user: " ++ username);;
      raise CREDENTIALS_EXCEPTION
    else
      logger_info ("User authenticated successfully: " ++ username);;
      ret user.

End WithEnv.

Definition get_user_by_email (email : pyobj) : M User :=
  user <- session_first (where_eq User_email email);;
  match user with
  | None =>
      logger_warning ("User not found with email: " ++ py_str email);;
      raise (HTTPException status.HTTP_404_NOT_FOUND "User not found" [])
  | Some user => ret user
  end.

Section Bearer.

Variable env : Env.

(** [TokenData(username=username).username].  The schema is declared in
    [app/schemas/auth_schemas.py], which is not among the sources: its
    constructor is a parameter, giving the value the field keeps or the
    validation error the constructor raises. *)
Variable TokenData_username : pyobj -> result pyobj.

Definition get_current_user (token : jwt.token) : M User :=
  payload <- encoders.decode_token env token;;
  let username := payload_get payload "sub" in
  if negb (py_bool username)
  then
    logger_warning "Invalid token: Missing username";;
    raise CREDENTIALS_EXCEPTION
  else
    token_data_username <- lift (TokenData_username username);;
    get_user token_data_username.

(** The dependencies as FastAPI resolves them for a bearer token:
    [Depends(get_current_active_user)] asks for [Depends(get_current_user)],
    and a [RoleChecker] asks for [Depends(get_current_active_user)]. *)
Definition Depends_get_current_active_user (token : jwt.token) : M User :=
  current_user <- get_current_user token;;
  get_current_active_user current_user.

Definition Depends_RoleChecker (self : RoleChecker) (token : jwt.token) : M User :=
  user <- Depends_get_current_active_user token;;
  RoleChecker_call self user.

End Bearer.

End dependencies.

(* ===================================================================== *)
(** ** [routers/auth.py] *)
(* ===================================================================== *)

Module auth.

Import auth_schemas.

Section WithEnv.

Variable env : Env.

(** [POST /auth/register]; [current_user] is the administrator the
    [RoleChecker] dependency resolved. *)
Definition create_user (user : UserCreate) (current_user : User) : M User :=
  let user_data := user in
  existing <- session_first (where_eq User_username (PyStr (uc_username user_data)));;
  match existing with
  | Some _ =>
      raise (HTTPException status.HTTP_409_CONFLICT "L'utilisateur existe dejas." [])
  | None =>
      existing <- session_first (where_eq User_email (PyStr (uc_email user_data)));;
      match existing with
      | Some _ =>
          raise (HTTPException status.HTTP_409_CONFLICT "l'Email est deja utilise." [])
      | None =>
          dependencies.validate_password (uc_password user_data);;
          hashed_password <- encoders.hash_password env (uc_password user_data);;
          user_db <- session_insert env user_data hashed_password;;
          logger_info "User created.";;
          ret user_db
      end
  end.

Definition access_claims (user : User) : gmap string jval :=
  <["role" := JStr (role_value (role user))]> {["sub" := JStr (username user)]}.

Definition refresh_claims (user : User) : gmap string jval :=
  {["sub" := JStr (username user)]}.

(** [POST /auth/login] *)
Definition login_for_access_token (form_username form_password : string) : M Token :=
  user <- dependencies.authenticate_user env form_username form_password;;
  if negb (object_truth user)
  then
    logger_warning "Login failed";;
    raise (HTTPException status.HTTP_401_UNAUTHORIZED
                         "Informations utilisateurs invalides." [])
  else
    let access_data := access_claims user in
    let refresh_data := refresh_claims user in
    let access_token :=
      encoders.encode_token env access_data
        (timedelta_minutes dependencies.ACCESS_TOKEN_EXPIRE_MINUTES) in
    let refresh_token :=
      encoders.encode_token env refresh_data
        (timedelta_days dependencies.REFRESH_TOKEN_EXPIRE_DAYS) in
    logger_info "User logged in.";;
    ret (mkToken access_token refresh_token "bearer").

(** [POST /auth/refresh] *)
Definition refresh_token (refresh : RefreshToken) : M Token :=
  payload <- encoders.decode_token env (rt_refresh_token refresh);;
  user <- dependencies.get_user (payload_get payload "sub");;
  if negb (object_truth user)
  then raise (HTTPException status.HTTP_401_UNAUTHORIZED "Invalid refresh token." [])
  else
    let access_token :=
      encoders.encode_token env (access_claims user)
        (timedelta_minutes dependencies.ACCESS_TOKEN_EXPIRE_MINUTES) in
    let refresh_token :=
      encoders.encode_token env (refresh_claims user)
        (timedelta_days dependencies.REFRESH_TOKEN_EXPIRE_DAYS) in
    ret (mkToken access_token refresh_token "bearer").

End WithEnv.

(** [GET /auth/me] *)
Definition read_users_me (current_user : User) : M User :=
  ret current_user.

End auth.

(* ===================================================================== *)
(** ** [routers/users.py] *)
(* ===================================================================== *)

Module users.

Definition get_user_by_id (user_id : Z) : M User :=
  user <- session_get user_id;;
  match user with
  | None => raise (HTTPException status.HTTP_404_NOT_FOUND "User not found." [])
  | Some user => ret user
  end.

Section WithEnv.

Variable env : Env.

(** [PATCH /users/{user_id}] *)
Definition update_user (user_id : Z) (user_update : UserUpdate) (current_user : User) : M User :=
  user <- get_user_by_id user_id;;
  let user_update_data := mkUpdateData user_update None in
  user_update_data <-
    (match dict_get (uu_old_password user_update), dict_get (uu_new_password user_update) with
     | Some old_password, Some new_password =>
         if truthy (Some old_password) && truthy (Some new_password)
         then
           ok <- encoders.verify_password env old_password (hashed_password user);;
           if ok
           then
             hashed <- encoders.hash_password env new_password;;
             ret (mkUpdateData user_update (Some hashed))
           else raise CREDENTIALS_EXCEPTION
         else ret user_update_data
     | _, _ => ret user_update_data
     end);;
  user <- session_update env user user_update_data;;
  logger_info ("Updated user with ID " ++ pretty user_id ++ ".");;
  ret user.

End WithEnv.


(** [GET /users/{user_id}] *)
Definition get_user (user_id : Z) (current_user : User) : M User :=
  user <- get_user_by_id user_id;;
  logger_info ("Retrieved user with ID " ++ pretty user_id ++ ".");;
  ret user.

(** [DELETE /users/{user_id}] *)
Definition delete_user (user_id : Z) (current_user : User) : M unit :=
  user <- get_user_by_id user_id;;
  session_delete user;;
  logger_info "User Deleted.".

End users.

(* ===================================================================== *)
(** ** [scripts/create_admin.py] *)
(* ===================================================================== *)

Module create_admin.

Section WithEnv.

Variable env : Env.

Definition admin_user (username email hashed_password : string) (new_id : Z) : User :=
  mkUser new_id username email None None hashed_password ADMIN true (now env) (now env).

(** The function returns nothing; the model returns the line it prints. *)
Definition create_admin_user (username email password : string) : M string :=
  admin_user_found <- session_first (where_eq User_username (PyStr username));;
  match admin_user_found with
  | Some _ => ret ("Admin user '" ++ username ++ "' already exists.")
  | None =>
      hashed_password <- encoders.hash_password env password;;
      session_add_commit (admin_user username email hashed_password);;
      ret ("Admin user '" ++ username ++ "' created successfully.")
  end.

End WithEnv.

End create_admin.

(* ===================================================================== *)
(** ** The password policy and the outcomes, in the words of the design *)
(* ===================================================================== *)

Module policy.

Definition has (class : ascii -> Prop) (p : string) : Prop :=
  exists c, In c (list_ascii_of_string p) /\ class c.

Definition uppercase (c : ascii) : Prop := (65 <= nat_of_ascii c <= 90)%nat.
Definition lowercase (c : ascii) : Prop := (97 <= nat_of_ascii c <= 122)%nat.
Definition digit (c : ascii) : Prop := (48 <= nat_of_ascii c <= 57)%nat.
Definition special (c : ascii) : Prop :=
  In c ["@"; "$"; "!"; "%"; "*"; "?"; "&"; "#"]%char.

(** The five rules, in their order, each with the message it reports. *)
Definition rules : list ((string -> Prop) * string) :=
  [ (fun p => (6 <= String.length p)%nat,
     "Password must be at least 6 characters long.");
    (has uppercase, "Password must contain at least one uppercase letter.");
    (has lowercase, "Password must contain at least one lowercase letter.");
    (has digit, "Password must contain at least one number.");
    (has special, "Password must contain at least one special character.") ].

Definition strong (p : string) : Prop :=
  (6 <= String.length p)%nat /\ has uppercase p /\ has lowercase p
  /\ has digit p /\ has special p.

(** [r] is the first rule, in the order of [rs], that [p] violates. *)
Definition first_violated (rs : list ((string -> Prop) * string))
           (p : string) (r : (string -> Prop) * string) : Prop :=
  exists before rest,
    rs = (before ++ r :: rest)%list
    /\ Forall (fun q => fst q p) before
    /\ ~ fst r p.

Definition WeakPassword (message : string) : exn :=
  HTTPException status.HTTP_400_BAD_REQUEST message [].

End policy.

(** The failures of the design, as the exceptions the code raises for them. *)
Definition NotFound : exn :=
  HTTPException status.HTTP_404_NOT_FOUND "User not found" [].
Definition Locked : exn :=
  HTTPException status.HTTP_423_LOCKED "Inactive user." [].
Definition InvalidCredentials : exn := CREDENTIALS_EXCEPTION.
Definition TokenExpired : exn := TOKEN_EXPIRE_EXCEPTION.
Definition Forbidden : exn :=
  HTTPException status.HTTP_403_FORBIDDEN "You don't have enough permissions" [].
Definition Conflict (detail : string) : exn :=
  HTTPException status.HTTP_409_CONFLICT detail [].

(* ===================================================================== *)
(** ** A running deployment, for the examples *)
(* ===================================================================== *)

Module demo.

(** A stand-in for the bcrypt scheme: it recognises the scheme's
    identifiers, and its digest is a fixed, keyless scrambling.  Only
    the shape matters to the examples; a string that starts as a bcrypt
    hash and is malformed after, on which the library raises, is used by
    none of them. *)
Definition idents : list string := ["$2$"; "$2a$"; "$2x$"; "$2y$"; "$2b$"].

Definition identify (hash : string) : bool :=
  existsb (fun ident => String.prefix ident hash) idents.

Definition digest (secret : string) : string :=
  "$2b$12$" ++ string_of_list_ascii (List.rev (list_ascii_of_string secret)).

Definition context : passlib.CryptContext :=
  passlib.mkCryptContext
    identify
    (fun secret hash => Ok (String.eqb (digest secret) hash))
    (fun secret => Ok (digest secret)).

(** The Enum column reads the value of a member and its name. *)
Definition parse_role (s : string) : option RoleType :=
  if String.eqb s "Administrateur" || String.eqb s "ADMIN" then Some ADMIN
  else if String.eqb s "Utilisateur" || String.eqb s "USER" then Some USER
  else if String.eqb s "Testeur" || String.eqb s "TESTER" then Some TESTER
  else None.

(** Decimal digits only; the signs, spaces and underscores that Python's
    [int] also reads are used by no example. *)
Definition parse_int (s : string) : option Z :=
  match list_ascii_of_string s with
  | [] => None
  | digits =>
      List.fold_left
        (fun acc c =>
           match acc with
           | Some n =>
               if ((48 <=? nat_of_ascii c) && (nat_of_ascii c <=? 57))%nat
               then Some (10 * n + Z.of_nat (nat_of_ascii c - 48))
               else None
           | None => None
           end)
        digits (Some 0)
  end.

(** The key block of a key of at most 64 bytes: the key padded with zero
    bytes.  The digest that replaces a longer key is not computed here: a
    longer key stands for itself. *)
Fixpoint zeros (n : nat) : string :=
  match n with
  | O => EmptyString
  | S n' => String Ascii.zero (zeros n')
  end.

Definition key_block (key : string) : string :=
  if (String.length key <=? 64)%nat
  then key ++ zeros (64 - String.length key)
  else key.

Definition env : Env :=
  mkEnv 1700000000 "server-secret" context parse_role parse_int key_block.

(** A week minus a minute later. *)
Definition later : Env :=
  mkEnv 1700604740 "server-secret" context parse_role parse_int key_block.

Definition alice : User :=
  mkUser 1 "alice" "alice@example.org" (Some "Alice") None
         (digest "Str0ng!Pw") ADMIN true 1690000000 1690000000.

Definition bob : User :=
  mkUser 2 "bob" "bob@example.org" None None
         (digest "B0b#secret") USER false 1690000100 1690000200.

Definition carol : User :=
  mkUser 3 "carol" "carol@example.org" None None
         (digest "C4rol?pass") USER true 1690000300 1690000300.

Definition world : World := mkWorld [alice; bob; carol] 4 [].

(** The same directory after alice was made a plain user. *)
Definition alice_downgraded : User :=
  mkUser 1 "alice" "alice@example.org" (Some "Alice") None
         (digest "Str0ng!Pw") USER true 1690000000 1700000500.

Definition world_restdowngrade : World :=
  mkWorld [alice_downgraded; bob; carol] 4 [].

(** The pair alice obtains by logging in at [env]. *)
Definition alice_login : auth_schemas.Token :=
  auth_schemas.mkToken
    (encoders.encode_token env (auth.access_claims alice)
       (timedelta_minutes dependencies.ACCESS_TOKEN_EXPIRE_MINUTES))
    (encoders.encode_token env (auth.refresh_claims alice)
       (timedelta_days dependencies.REFRESH_TOKEN_EXPIRE_DAYS))
    "bearer".

(** A change of password to one the policy refuses, with carol's actual
    password as the old one. *)
Definition weak_change : UserUpdate :=
  mkUserUpdate Unset Unset Unset Unset (Val "C4rol?pass") (Val "abc") Unset Unset.

(** A body that names a new password and no old one, and a first name. *)
Definition lone_new_password : UserUpdate :=
  mkUserUpdate Unset Unset (Val "Carol") Unset Unset (Val "N3w!pass") Unset Unset.

(** A body that names a new password and no old one, and the username of
    alice. *)
Definition lone_new_password_taken_name : UserUpdate :=
  mkUserUpdate (Val "alice") Unset Unset Unset Unset (Val "N3w!pass") Unset Unset.

(** A body that names an old password and no new one, and new values for
    the other fields. *)
Definition lone_old_password_rename : UserUpdate :=
  mkUserUpdate (Val "caroline") (Val "caroline@example.org") (Val "Caroline") Unset
               (Val "C4rol?pass") Unset (Val false) (Val "Administrateur").

Definition duplicate_username : UserCreate :=
  mkUserCreate "alice" "other@example.org" None None "An0ther!Pw".

Definition duplicate_email : UserCreate :=
  mkUserCreate "dave" "bob@example.org" None None "An0ther!Pw".



(** A refresh token the server signed for an account that is gone. *)
Definition mallory_refresh : jwt.token :=
  encoders.encode_token env {["sub" := JStr "mallory"]}
    (timedelta_days dependencies.REFRESH_TOKEN_EXPIRE_DAYS).

(** The server after its secret was replaced. *)
Definition rotated : Env :=
  mkEnv 1700000060 "another-secret" context parse_role parse_int key_block.

(** A quarter of an hour and more after [env]. *)
Definition stale : Env :=
  mkEnv 1700000900 "server-secret" context parse_role parse_int key_block.

(** A [TokenData] that keeps the username it is given. *)
Definition token_data (username : pyobj) : result pyobj := Ok username.

(** Bob, while his account was still active. *)
Definition bob_active : User :=
  mkUser 2 "bob" "bob@example.org" None None
         (digest "B0b#secret") USER true 1690000100 1690000200.

Definition world_before_lock : World := mkWorld [alice; bob_active; carol] 4 [].

Definition dave : UserCreate :=
  mkUserCreate "dave" "dave@example.org" (Some "Dave") None "D4ve!pass".

Definition dave_weak : UserCreate :=
  mkUserCreate "dave" "dave@example.org" (Some "Dave") None "davepass".

End demo.

(* ===================================================================== *)
(** ** The token codec and the update of a user, in the words of the design *)
(* ===================================================================== *)

Module codec.

(** The token has three well-formed segments, names the server's
    algorithm and carries a signature made with the server's key. *)
Definition well_signed (env : Env) (tok : jwt.token) (payload : gmap string jval) : Prop :=
  tok = jwt.Signed encoders.ALGORITHM payload (SECRET_KEY env).


(** The claim [v] reads as the date [n]: it is that integer, or a string
    that Python's [int] reads as it. *)
Definition date (env : Env) (v : jval) (n : Z) : Prop :=
  v = JInt n \/ exists s, v = JStr s /\ int_of_str env s = Some n.

(** The claim [name] is absent, or a date that the clock has reached. *)
Definition reached (env : Env) (payload : gmap string jval) (name : string) : Prop :=
  payload !! name = None
  \/ exists v n, payload !! name = Some v /\ date env v n /\ n <= now env.

(** Issued and valid-from dates, when the token carries them, are not in
    the future. *)
Definition timely (env : Env) (payload : gmap string jval) : Prop :=
  reached env payload "iat" /\ reached env payload "nbf".

(** The claims carry an expiry that the clock has reached. *)
Definition expired (env : Env) (payload : gmap string jval) : Prop :=
  exists v n, payload !! "exp" = Some v /\ date env v n /\ n <= now env.

(** The claims carry no expiry, or one still ahead of the clock. *)
Definition live (env : Env) (payload : gmap string jval) : Prop :=
  payload !! "exp" = None
  \/ exists v n, payload !! "exp" = Some v /\ date env v n /\ now env < n.

(** The token names no audience, and its subject and identifier, when it
    has them, are strings. *)
Definition unaddressed (payload : gmap string jval) : Prop :=
  (payload !! "aud" = None \/ payload !! "aud" = Some (JStr "")
   \/ payload !! "aud" = Some (JInt 0))
  /\ (payload !! "sub" = None \/ exists s, payload !! "sub" = Some (JStr s))
  /\ (payload !! "jti" = None \/ exists s, payload !! "jti" = Some (JStr s)).

(** Claims as this server issues them: of the registered claims, at most a
    string subject and the expiry that [encode_token] sets. *)
Definition plain (data : gmap string jval) : Prop :=
  data !! "iat" = None /\ data !! "nbf" = None /\ data !! "aud" = None
  /\ data !! "jti" = None
  /\ (data !! "sub" = None \/ exists s, data !! "sub" = Some (JStr s)).

End codec.

Module patch.

(** The body names one of the two passwords and leaves the other out. *)
Definition one_sided (b : UserUpdate) : Prop :=
  (uu_old_password b = Unset /\ exists s, uu_new_password b = Val s)
  \/ (uu_new_password b = Unset /\ exists s, uu_old_password b = Val s).

Definition without_passwords (b : UserUpdate) : UserUpdate :=
  mkUserUpdate (uu_username b) (uu_email b) (uu_first_name b) (uu_last_name b)
               Unset Unset (uu_is_active b) (uu_role b).

(** A supplied value is the stored one afterwards; a field left out keeps
    its stored value. *)
Definition applied {A} (f : field A) (old new : A) : Prop :=
  match f with
  | Val v => new = v
  | Unset => new = old
  | Null => True
  end.

Definition applied_nullable {A} (f : field A) (old new : option A) : Prop :=
  match f with
  | Val v => new = Some v
  | Unset => new = old
  | Null => new = None
  end.

Definition applied_role (env : Env) (f : field string) (old new : RoleType) : Prop :=
  match f with
  | Val s => coerce_role env s = Some new
  | Unset => new = old
  | Null => True
  end.

(** A string no longer than its column. *)
Definition within (s : string) : Prop := (String.length s <= 100)%nat.

(** The value a column is to hold, the supplied one or else the stored one,
    satisfies [P]. *)
Definition fill {A} (f : field A) (old : A) (P : A -> Prop) : Prop :=
  match f with
  | Val v => P v
  | Unset => P old
  | Null => True
  end.

Definition fill_nullable {A} (f : field A) (old : option A) (P : A -> Prop) : Prop :=
  match f with
  | Val v => P v
  | Unset => forall v, old = Some v -> P v
  | Null => True
  end.

(** The body can be written over the stored row [user]: it sets no
    required column to null, a role it supplies is one of the enumeration,
    the strings the row is to hold fit their columns, and no other row
    holds the username the row is to hold. *)
Definition writable (env : Env) (tbl : list User) (user : User) (b : UserUpdate) : Prop :=
  (uu_username b <> Null /\ uu_email b <> Null
   /\ uu_is_active b <> Null /\ uu_role b <> Null)
  /\ (forall s, uu_role b = Val s -> exists r, coerce_role env s = Some r)
  /\ (fill (uu_username b) (username user) within
      /\ fill (uu_email b) (email user) within
      /\ fill_nullable (uu_first_name b) (first_name user) within
      /\ fill_nullable (uu_last_name b) (last_name user) within)
  /\ (forall other,
        In other tbl -> id other <> id user ->
        fill (uu_username b) (username user) (fun name => username other <> name)).

End patch.

(** A coded rule and a stated rule agree on [p] and report the same
    message. *)
Definition agree (p : string) (coded : (string -> bool) * string)
           (stated : (string -> Prop) * string) : Prop :=
  snd coded = snd stated /\ (fst coded p = true <-> fst stated p).

(** The table as the database keeps it: primary keys and usernames are
    unique, and the sequence is ahead of every primary key. *)
Definition table_ok (w : World) : Prop :=
  List.NoDup (List.map id (user_table w))
  /\ List.NoDup (List.map username (user_table w))
  /\ Forall (fun u => id u < user_id_seq w) (user_table w).

(** A computation that writes neither the table nor its sequence. *)
Definition keeps_table {A} (m : M A) : Prop :=
  forall w, user_table (after m w) = user_table w
            /\ user_id_seq (after m w) = user_id_seq w.

(** A computation that keeps a property of the state, whatever its
    outcome. *)
Definition preserves {A} (P : World -> Prop) (m : M A) : Prop :=
  forall w, P w -> P (after m w).

(** The world after some more events. *)
Definition logged (w : World) (more : list event) : World :=
  mkWorld (user_table w) (user_id_seq w) (events w ++ more).

(* ===================================================================== *)
(** ** Running a computation *)
(* ===================================================================== *)

Lemma outcome_bind {A B} (m : M A) (k : A -> M B) (w : World) :
  outcome (bind m k) w =
  match outcome m w with
  | Ok a => outcome (k a) (after m w)
  | Raise e => Raise e
  end.
Proof.
  unfold outcome, after, bind. destruct (m w) as [[a | e] w']; reflexivity.
Qed.

Lemma after_bind {A B} (m : M A) (k : A -> M B) (w : World) :
  after (bind m k) w =
  match outcome m w with
  | Ok a => after (k a) (after m w)
  | Raise e => after m w
  end.
Proof.
  unfold outcome, after, bind. destruct (m w) as [[a | e] w']; reflexivity.
Qed.

Lemma outcome_emit (e : event) (w : World) : outcome (emit e) w = Ok tt.
Proof. reflexivity. Qed.

Ltac run :=
  repeat first
    [ rewrite outcome_bind
    | rewrite after_bind
    | rewrite outcome_emit
    | progress cbn [outcome after ret raise lift fst snd
                    logger_warning logger_info emit
                    user_table user_id_seq events] ].

(* ===================================================================== *)
(** ** The credential validator *)
(* ===================================================================== *)

Lemma re_search_has (class : ascii -> bool) (P : ascii -> Prop) (p : string) :
  (forall c, class c = true <-> P c) ->
  dependencies.re_search class p = true <-> policy.has P p.
Proof.
  intros Hc. unfold dependencies.re_search, policy.has.
  rewrite existsb_exists. split; intros [c [Hin H]]; exists c; split; auto; now apply Hc.
Qed.

Lemma in_range_spec (lo hi c : ascii) :
  dependencies.in_range lo hi c = true
  <-> (nat_of_ascii lo <= nat_of_ascii c <= nat_of_ascii hi)%nat.
Proof.
  unfold dependencies.in_range. rewrite andb_true_iff, !Nat.leb_le. reflexivity.
Qed.

Lemma in_set_spec (chars : string) (c : ascii) :
  dependencies.in_set chars c = true <-> In c (list_ascii_of_string chars).
Proof.
  unfold dependencies.in_set. rewrite existsb_exists. split.
  - intros [x [Hin Heq]]. apply Ascii.eqb_eq in Heq. now subst.
  - intros Hin. exists c. split; [assumption | apply Ascii.eqb_refl].
Qed.


Lemma validation_rules_agree (p : string) :
  Forall2 (agree p) dependencies.validation_rules policy.rules.
Proof.
  unfold dependencies.validation_rules, policy.rules.
  repeat match goal with
         | |- Forall2 _ (_ :: _) (_ :: _) =>
             constructor; [split; [reflexivity | cbn [fst snd]] |]
         | |- Forall2 _ [] [] => constructor
         end.
  - apply Nat.leb_le.
  - apply re_search_has. intros c. apply (in_range_spec "A" "Z" c).
  - apply re_search_has. intros c. apply (in_range_spec "a" "z" c).
  - apply re_search_has. intros c. apply (in_range_spec "0" "9" c).
  - apply re_search_has. intros c. apply (in_set_spec "@$!%*?&#" c).
Qed.

Lemma check_rules_ok coded stated p w :
  Forall2 (agree p) coded stated ->
  outcome (dependencies.check_rules coded p) w = Ok tt
  <-> Forall (fun q => fst q p) stated.
Proof.
  intros H. revert w. induction H as [| [rule msg] [P msg'] coded stated [Hm Hr] _ IH]; intros w.
  - cbn. split; [constructor | reflexivity].
  - cbn [dependencies.check_rules]. cbn [fst snd] in Hm, Hr. subst msg'.
    destruct (rule p) eqn:E; cbn [negb].
    + rewrite IH. split.
      * intros HF. constructor; [now apply Hr | assumption].
      * intros HF. now inversion HF.
    + run. split; [discriminate |].
      intros HF. inversion HF as [| ? ? HP _]; subst. cbn in HP.
      apply Hr in HP. congruence.
Qed.

Lemma check_rules_raise coded stated p w e :
  Forall2 (agree p) coded stated ->
  outcome (dependencies.check_rules coded p) w = Raise e
  <-> exists r, policy.first_violated stated p r /\ e = policy.WeakPassword (snd r).
Proof.
  intros H. revert w. induction H as [| [rule msg] [P msg'] coded stated [Hm Hr] _ IH]; intros w.
  - cbn. split; [discriminate |].
    intros [r [[before [rest [Heq _]]] _]]. destruct before; discriminate.
  - cbn [dependencies.check_rules]. cbn [fst snd] in Hm, Hr. subst msg'.
    destruct (rule p) eqn:E; cbn [negb].
    + rewrite IH. split.
      * intros [r [[before [rest [Heq [Hb Hn]]]] He]].
        exists r. split; [| assumption].
        exists ((P, msg) :: before), rest. repeat split.
        -- cbn. now rewrite Heq.
        -- constructor; [now apply Hr | assumption].
        -- assumption.
      * intros [r [[before [rest [Heq [Hb Hn]]]] He]].
        destruct before as [| q before].
        -- cbn in Heq. injection Heq as Hq _. subst r. cbn in Hn.
           exfalso. apply Hn. now apply Hr.
        -- cbn in Heq. injection Heq as _ Heq.
           exists r. split; [| assumption].
           exists before, rest. repeat split; try assumption.
           now inversion Hb.
    + run. split.
      * intros He. injection He as <-.
        exists (P, msg). split; [| reflexivity].
        exists [], stated. repeat split; [constructor |].
        cbn. intros HP. apply Hr in HP. congruence.
      * intros [r [[before [rest [Heq [Hb Hn]]]] He]].
        destruct before as [| q before].
        -- cbn in Heq. injection Heq as Hq _. subst r. now subst e.
        -- cbn in Heq. injection Heq as Hq _. subst q.
           inversion Hb as [| ? ? HP _]; subst. cbn in HP.
           apply Hr in HP. congruence.
Qed.

(** C7.  [validate_password] accepts a password exactly when the five
    rules hold: at least 6 characters, an uppercase letter, a lowercase
    letter, a digit, and one of [@ $ ! % * ? & #].  It raises exactly when
    some rule is violated, and then with status 400 and the message of the
    first violated rule in that order; ["abc"] fails with the message of the
    length rule. *)
Theorem validate_password_first_unmet_rule :
  forall (p : string) (w : World),
    (outcome (dependencies.validate_password p) w = Ok tt <-> policy.strong p)
    /\ (forall e,
          outcome (dependencies.validate_password p) w = Raise e
          <-> exists r, policy.first_violated policy.rules p r
                        /\ e = policy.WeakPassword (snd r))
    /\ outcome (dependencies.validate_password "abc") w
       = Raise (policy.WeakPassword "Password must be at least 6 characters long.").
Proof.
  intros p w. unfold dependencies.validate_password.
  pose proof (validation_rules_agree p) as Hagree.
  split; [| split].
  - rewrite (check_rules_ok _ _ _ _ Hagree). unfold policy.rules, policy.strong.
    split.
    + intros HF.
      repeat match goal with
             | HF : Forall _ (_ :: _) |- _ => inversion HF; subst; clear HF
             end.
      cbn [fst] in *. tauto.
    + intros (H1 & H2 & H3 & H4 & H5). repeat constructor; assumption.
  - intros e. apply (check_rules_raise _ _ _ _ _ Hagree).
  - reflexivity.
Qed.

(* ===================================================================== *)
(** ** The role checker *)
(* ===================================================================== *)

Lemma contains_In (l : list string) (x : string) :
  dependencies.contains l x = true <-> In x l.
Proof.
  unfold dependencies.contains. rewrite existsb_exists. split.
  - intros [y [Hin Heq]]. apply String.eqb_eq in Heq. now subst.
  - intros Hin. exists x. split; [assumption | apply String.eqb_refl].
Qed.

Lemma role_checker_cases (allowed : list string) (user : User) (w : World) :
  outcome (dependencies.RoleChecker_call (dependencies.mkRoleChecker allowed) user) w
  = if dependencies.contains allowed (role_value (role user))
       || dependencies.contains allowed "*"
    then Ok user else Raise Forbidden.
Proof.
  unfold dependencies.RoleChecker_call. cbn [dependencies.allowed_roles].
  destruct (_ || _); run; reflexivity.
Qed.

(** C6.  The role checker returns the identity unchanged exactly when its
    role is among the allowed roles or the allowed roles contain the
    wildcard ["*"], and raises the 403 exception exactly otherwise.  With
    [["*"]] every identity passes; with only the administrator role, every
    identity whose role is [USER] is refused with 403. *)
Theorem role_checker_admits_member_or_wildcard :
  forall (allowed : list string) (user : User) (w : World),
    (outcome (dependencies.RoleChecker_call (dependencies.mkRoleChecker allowed) user) w
     = Ok user
     <-> In (role_value (role user)) allowed \/ In "*" allowed)
    /\ (outcome (dependencies.RoleChecker_call (dependencies.mkRoleChecker allowed) user) w
        = Raise Forbidden
        <-> ~ (In (role_value (role user)) allowed \/ In "*" allowed))
    /\ outcome (dependencies.RoleChecker_call (dependencies.mkRoleChecker ["*"]) user) w
       = Ok user
    /\ (forall i n e f l h a c u,
          outcome (dependencies.RoleChecker_call
                     (dependencies.mkRoleChecker [role_value ADMIN])
                     (mkUser i n e f l h USER a c u)) w
          = Raise Forbidden).
Proof.
  intros allowed user w. split; [| split; [| split]].
  - rewrite role_checker_cases, <- !contains_In.
    destruct (dependencies.contains allowed (role_value (role user)));
      destruct (dependencies.contains allowed "*"); cbn [orb];
      (split; [intros H; try discriminate; auto
              | intros [H | H]; try discriminate; reflexivity]).
  - rewrite role_checker_cases, <- !contains_In.
    destruct (dependencies.contains allowed (role_value (role user)));
      destruct (dependencies.contains allowed "*"); cbn [orb];
      (split; [intros H; try discriminate; intros [H' | H']; discriminate
              | intros H; try reflexivity; exfalso; apply H; auto]).
  - rewrite role_checker_cases. destruct (role user); reflexivity.
  - intros. rewrite role_checker_cases. reflexivity.
Qed.

(* ===================================================================== *)
(** ** The authenticator *)
(* ===================================================================== *)

Lemma get_user_found (name : string) (user : User) (w : World) :
  List.find (fun u => String.eqb (username u) name) (user_table w) = Some user ->
  dependencies.get_user (PyStr name) w = (Ok user, w).
Proof.
  intros H. unfold dependencies.get_user, bind, session_first, where_eq, User_username.
  now rewrite H.
Qed.

Lemma get_user_missing (name : string) (w : World) :
  List.find (fun u => String.eqb (username u) name) (user_table w) = None ->
  outcome (dependencies.get_user (PyStr name)) w = Raise NotFound
  /\ user_table (after (dependencies.get_user (PyStr name)) w) = user_table w.
Proof.
  intros H. unfold outcome, after, dependencies.get_user, bind, session_first,
    where_eq, User_username.
  rewrite H. split; reflexivity.
Qed.

(** C4.  When the username resolves to a user whose [is_active] flag is
    false, [authenticate_user] raises the 423 exception whatever the
    submitted password, hence never the credentials exception; it logs the
    attempt and calls the password context not at all. *)
Theorem authenticate_inactive_is_locked :
  forall (env : Env) (name password : string) (w : World) (user : User),
    List.find (fun u => String.eqb (username u) name) (user_table w) = Some user ->
    is_active user = false ->
    outcome (dependencies.authenticate_user env name password) w = Raise Locked
    /\ outcome (dependencies.authenticate_user env name password) w
       <> Raise InvalidCredentials
    /\ events (after (dependencies.authenticate_user env name password) w)
       = (events w ++ [Log "WARNING" ("Inactive user login attempt: " ++ name)])%list
    /\ (forall secret hash,
          In (PwdVerify secret hash)
             (events (after (dependencies.authenticate_user env name password) w))
          -> In (PwdVerify secret hash) (events w)).
Proof.
  intros env name password w user Hfind Hinactive.
  assert (Hrun : dependencies.authenticate_user env name password w
                 = (Raise Locked,
                    mkWorld (user_table w) (user_id_seq w)
                            (events w ++ [Log "WARNING" ("Inactive user login attempt: " ++ name)]))).
  { unfold dependencies.authenticate_user, bind at 1.
    rewrite (get_user_found _ _ _ Hfind), Hinactive. reflexivity. }
  unfold outcome, after. rewrite Hrun. cbn [fst snd events].
  repeat split.
  - discriminate.
  - intros secret hash Hin. apply in_app_or in Hin as [Hin | [Hin | []]].
    + assumption.
    + discriminate.
Qed.

Lemma authenticate_inactive_is_locked_witness :
  outcome (dependencies.authenticate_user demo.env "bob" "not bob's password") demo.world
  = Raise Locked
  /\ outcome (dependencies.authenticate_user demo.env "bob" "B0b#secret") demo.world
     = Raise Locked.
Proof.
  split.
  - apply (authenticate_inactive_is_locked
             demo.env "bob" "not bob's password" demo.world demo.bob);
      reflexivity.
  - apply (authenticate_inactive_is_locked
             demo.env "bob" "B0b#secret" demo.world demo.bob);
      reflexivity.
Defined.

(* ===================================================================== *)
(** ** The token codec *)
(* ===================================================================== *)


Lemma decode_token_signed (env : Env) (payload : gmap string jval) (key : string)
      (w : World) :
  hmac_key env key = hmac_key env (SECRET_KEY env) ->
  outcome (encoders.decode_token env (jwt.Signed encoders.ALGORITHM payload key)) w
  = match jwt.validate_claims (int_of_str env) (now env) payload with
    | None => Ok payload
    | Some jwt.ExpiredSignatureError => Raise TokenExpired
    | Some _ => Raise InvalidCredentials
    end.
Proof.
  intros Hkey. unfold encoders.decode_token, jwt.decode. cbn [existsb].
  rewrite Hkey, !String.eqb_refl. cbn [orb negb].
  destruct (jwt.validate_claims (int_of_str env) (now env) payload) as [[] |];
    reflexivity.
Qed.


(** The coded checks against the stated conditions. *)
Lemma numeric_date_date (env : Env) (v : jval) (n : Z) :
  jwt.numeric_date (int_of_str env) v = Some n <-> codec.date env v n.
Proof.
  unfold codec.date. destruct v as [s | m]; cbn [jwt.numeric_date]; split.
  - intros H. right. now exists s.
  - intros [H | (s' & H & Hs)]; [discriminate | congruence].
  - intros H. left. congruence.
  - intros [H | (s' & H & Hs)]; [congruence | discriminate].
Qed.

Lemma date_functional (env : Env) (v : jval) (n m : Z) :
  codec.date env v n -> codec.date env v m -> n = m.
Proof.
  intros Hn Hm. apply numeric_date_date in Hn, Hm. congruence.
Qed.

Lemma validate_iat_reached (env : Env) (payload : gmap string jval) :
  (jwt.validate_iat (int_of_str env) (now env) payload = None
   <-> codec.reached env payload "iat")
  /\ jwt.validate_iat (int_of_str env) (now env) payload <> Some jwt.ExpiredSignatureError.
Proof.
  unfold jwt.validate_iat, codec.reached.
  destruct (payload !! "iat") as [v |]; [| split; [split; auto | discriminate]].
  destruct (jwt.numeric_date (int_of_str env) v) as [n |] eqn:En.
  - apply numeric_date_date in En.
    destruct (Z.ltb_spec (now env) n); (split; [split | discriminate]).
    + discriminate.
    + intros [H0 | (v' & m & Hv & Hd & Hle)]; [discriminate |].
      injection Hv as <-. pose proof (date_functional _ _ _ _ En Hd). lia.
    + intros _. right. now exists v, n.
    + reflexivity.
  - split; [split | discriminate]; [discriminate |].
    intros [H0 | (v' & m & Hv & Hd & _)]; [discriminate |].
    injection Hv as <-. apply numeric_date_date in Hd. congruence.
Qed.

Lemma validate_nbf_reached (env : Env) (payload : gmap string jval) :
  (jwt.validate_nbf (int_of_str env) (now env) payload = None
   <-> codec.reached env payload "nbf")
  /\ jwt.validate_nbf (int_of_str env) (now env) payload <> Some jwt.ExpiredSignatureError.
Proof.
  unfold jwt.validate_nbf, codec.reached.
  destruct (payload !! "nbf") as [v |]; [| split; [split; auto | discriminate]].
  destruct (jwt.numeric_date (int_of_str env) v) as [n |] eqn:En.
  - apply numeric_date_date in En.
    destruct (Z.ltb_spec (now env) n); (split; [split | discriminate]).
    + discriminate.
    + intros [H0 | (v' & m & Hv & Hd & Hle)]; [discriminate |].
      injection Hv as <-. pose proof (date_functional _ _ _ _ En Hd). lia.
    + intros _. right. now exists v, n.
    + reflexivity.
  - split; [split | discriminate]; [discriminate |].
    intros [H0 | (v' & m & Hv & Hd & _)]; [discriminate |].
    injection Hv as <-. apply numeric_date_date in Hd. congruence.
Qed.

Lemma validate_exp_cases (env : Env) (payload : gmap string jval) :
  (jwt.validate_exp (int_of_str env) (now env) payload = None <-> codec.live env payload)
  /\ (jwt.validate_exp (int_of_str env) (now env) payload = Some jwt.ExpiredSignatureError
      <-> codec.expired env payload).
Proof.
  unfold jwt.validate_exp, codec.live, codec.expired.
  destruct (payload !! "exp") as [v |].
  2:{ split; split; auto; try discriminate. intros (v & n & H & _). discriminate. }
  destruct (jwt.numeric_date (int_of_str env) v) as [n |] eqn:En.
  - apply numeric_date_date in En.
    destruct (Z.leb_spec n (now env)); split; split; try discriminate; try reflexivity.
    + intros [H0 | (v' & m & Hv & Hd & Hlt)]; [discriminate |].
      injection Hv as <-. pose proof (date_functional _ _ _ _ En Hd). lia.
    + intros _. now exists v, n.
    + intros _. right. now exists v, n.
    + intros (v' & m & Hv & Hd & Hle).
      injection Hv as <-. pose proof (date_functional _ _ _ _ En Hd). lia.
  - split; split; try discriminate.
    + intros [H0 | (v' & m & Hv & Hd & _)]; [discriminate |].
      injection Hv as <-. apply numeric_date_date in Hd. congruence.
    + intros (v' & m & Hv & Hd & _).
      injection Hv as <-. apply numeric_date_date in Hd. congruence.
Qed.

Lemma validate_rest_unaddressed (env : Env) (payload : gmap string jval) :
  (jwt.validate_aud payload = None /\ jwt.validate_sub payload = None
   /\ jwt.validate_jti payload = None
   <-> codec.unaddressed payload)
  /\ jwt.validate_aud payload <> Some jwt.ExpiredSignatureError
  /\ jwt.validate_sub payload <> Some jwt.ExpiredSignatureError
  /\ jwt.validate_jti payload <> Some jwt.ExpiredSignatureError.
Proof.
  unfold jwt.validate_aud, jwt.validate_sub, jwt.validate_jti, codec.unaddressed.
  split; [| split; [| split]].
  - destruct (payload !! "aud") as [[a | a] |]; cbn [jwt.claim_bool];
      [destruct (String.eqb_spec a "") as [-> | Ha]
      | destruct (Z.eqb_spec a 0) as [-> | Ha] |];
      cbn [negb];
      destruct (payload !! "sub") as [[u | u] |];
      destruct (payload !! "jti") as [[j | j] |];
      (split;
       [ intros (H1 & H2 & H3); try discriminate;
         repeat split; eauto
       | intros (H1 & H2 & H3); repeat split; try reflexivity;
         try (destruct H1 as [H1 | [H1 | H1]]; congruence);
         try (destruct H2 as [H2 | [x H2]]; congruence);
         try (destruct H3 as [H3 | [x H3]]; congruence) ]).
  - destruct (payload !! "aud") as [v |]; [| discriminate].
    destruct (jwt.claim_bool v); discriminate.
  - destruct (payload !! "sub") as [[u | u] |]; discriminate.
  - destruct (payload !! "jti") as [[j | j] |]; discriminate.
Qed.

Lemma validate_claims_none (env : Env) (payload : gmap string jval) :
  jwt.validate_claims (int_of_str env) (now env) payload = None
  <-> codec.timely env payload /\ codec.live env payload /\ codec.unaddressed payload.
Proof.
  destruct (validate_iat_reached env payload) as [Hiat _].
  destruct (validate_nbf_reached env payload) as [Hnbf _].
  destruct (validate_exp_cases env payload) as [Hexp _].
  destruct (validate_rest_unaddressed env payload) as [Hrest _].
  unfold jwt.validate_claims, codec.timely.
  rewrite <- Hiat, <- Hnbf, <- Hexp, <- Hrest.
  destruct (jwt.validate_iat _ _ _); [split; [discriminate | intros [[H _] _]; discriminate] |].
  destruct (jwt.validate_nbf _ _ _); [split; [discriminate | intros [[_ H] _]; discriminate] |].
  destruct (jwt.validate_exp _ _ _); [split; [discriminate | intros [_ [H _]]; discriminate] |].
  destruct (jwt.validate_aud _);
    [split; [discriminate | intros [_ [_ [H _]]]; discriminate] |].
  destruct (jwt.validate_sub _);
    [split; [discriminate | intros [_ [_ [_ [H _]]]]; discriminate] |].
  split; [intros H; repeat split; assumption | intros [_ [_ [_ [_ H]]]]; exact H].
Qed.

Lemma validate_claims_expired (env : Env) (payload : gmap string jval) :
  jwt.validate_claims (int_of_str env) (now env) payload = Some jwt.ExpiredSignatureError
  <-> codec.timely env payload /\ codec.expired env payload.
Proof.
  destruct (validate_iat_reached env payload) as [Hiat Hiat'].
  destruct (validate_nbf_reached env payload) as [Hnbf Hnbf'].
  destruct (validate_exp_cases env payload) as [Hlive Hexp].
  destruct (validate_rest_unaddressed env payload) as (_ & Haud & Hsub & Hjti).
  unfold jwt.validate_claims, codec.timely.
  rewrite <- Hiat, <- Hnbf, <- Hexp.
  destruct (jwt.validate_iat _ _ _) as [e |];
    [split; [intros H; congruence | intros [[H _] _]; discriminate] |].
  destruct (jwt.validate_nbf _ _ _) as [e |];
    [split; [intros H; congruence | intros [[_ H] _]; discriminate] |].
  destruct (jwt.validate_exp _ _ _) as [e |]; [split; [intros H; auto | intros [_ H]; exact H] |].
  destruct (jwt.validate_aud _) as [e |];
    [split; [intros H; congruence | intros [_ H]; discriminate] |].
  destruct (jwt.validate_sub _) as [e |];
    [split; [intros H; congruence | intros [_ H]; discriminate] |].
  split; [intros H; congruence | intros [_ H]; discriminate].
Qed.



(* ===================================================================== *)
(** ** Issuing and refreshing tokens *)
(* ===================================================================== *)

Lemma decode_token_world (env : Env) (tok : jwt.token) (w : World) :
  after (encoders.decode_token env tok) w = w.
Proof.
  unfold after, encoders.decode_token.
  destruct (jwt.decode _ _ _ _) as [[] | payload]; reflexivity.
Qed.

Lemma find_username (name : string) (tbl : list User) (user : User) :
  List.find (fun u => String.eqb (username u) name) tbl = Some user ->
  username user = name /\ In user tbl.
Proof.
  intros H. apply find_some in H as [Hin Heq].
  apply String.eqb_eq in Heq. now split.
Qed.

(** The claims this server issues carry no registered claim but a string
    subject. *)
Lemma plain_refresh_claims (user : User) : codec.plain (auth.refresh_claims user).
Proof.
  unfold codec.plain, auth.refresh_claims.
  rewrite !lookup_singleton_ne by discriminate. rewrite lookup_singleton_eq.
  repeat split; try reflexivity. right. now exists (username user).
Qed.

Lemma plain_access_claims (user : User) : codec.plain (auth.access_claims user).
Proof.
  unfold codec.plain, auth.access_claims.
  rewrite !lookup_insert_ne by discriminate.
  exact (plain_refresh_claims user).
Qed.

(** Plain claims with an expiry ahead of the clock pass every check of the
    decoder. *)
Lemma plain_claims_valid (env : Env) (data : gmap string jval) (n : Z) :
  codec.plain data -> now env < n ->
  jwt.validate_claims (int_of_str env) (now env) (<["exp" := JInt n]> data) = None.
Proof.
  intros (Hiat & Hnbf & Haud & Hjti & Hsub) Hnow. apply validate_claims_none.
  unfold codec.timely, codec.reached, codec.live, codec.unaddressed.
  rewrite (lookup_insert_ne data "exp" "iat"), (lookup_insert_ne data "exp" "nbf"),
    (lookup_insert_ne data "exp" "aud"), (lookup_insert_ne data "exp" "sub"),
    (lookup_insert_ne data "exp" "jti"), lookup_insert_eq by discriminate.
  split; [split; now left | split].
  - right. exists (JInt n), n. split; [reflexivity | split; [now left | exact Hnow]].
  - split; [now left | split; [exact Hsub | now left]].
Qed.

Lemma plain_claims_expired (env : Env) (data : gmap string jval) (n : Z) :
  codec.plain data -> n <= now env ->
  jwt.validate_claims (int_of_str env) (now env) (<["exp" := JInt n]> data)
  = Some jwt.ExpiredSignatureError.
Proof.
  intros (Hiat & Hnbf & Haud & Hjti & Hsub) Hnow. apply validate_claims_expired.
  unfold codec.timely, codec.reached, codec.expired.
  rewrite (lookup_insert_ne data "exp" "iat"), (lookup_insert_ne data "exp" "nbf"),
    lookup_insert_eq by discriminate.
  split; [split; now left |].
  exists (JInt n), n. split; [reflexivity | split; [now left | exact Hnow]].
Qed.

(** A token just encoded with a positive lifetime decodes to its claims. *)
Lemma decode_encode_token (env env' : Env) (data : gmap string jval) (delta : Z) (w : World) :
  codec.plain data ->
  SECRET_KEY env' = SECRET_KEY env ->
  now env' < now env + delta ->
  outcome (encoders.decode_token env' (encoders.encode_token env data delta)) w
  = Ok (<["exp" := JInt (now env + delta)]> data).
Proof.
  intros Hplain Hkey Hnow. unfold encoders.encode_token, jwt.encode.
  rewrite decode_token_signed by now rewrite Hkey.
  now rewrite plain_claims_valid.
Qed.

Lemma login_issues (env : Env) (name password : string) (w : World) (pair : auth_schemas.Token) :
  outcome (auth.login_for_access_token env name password) w = Ok pair ->
  exists user,
    outcome (dependencies.authenticate_user env name password) w = Ok user
    /\ pair = auth_schemas.mkToken
                (encoders.encode_token env (auth.access_claims user)
                   (timedelta_minutes dependencies.ACCESS_TOKEN_EXPIRE_MINUTES))
                (encoders.encode_token env (auth.refresh_claims user)
                   (timedelta_days dependencies.REFRESH_TOKEN_EXPIRE_DAYS))
                "bearer".
Proof.
  unfold auth.login_for_access_token. rewrite outcome_bind.
  destruct (outcome (dependencies.authenticate_user env name password) w) as [user | e];
    [| discriminate].
  cbn [object_truth negb]. run. intros H. injection H as <-. now exists user.
Qed.

Lemma authenticate_returns_named (env : Env) (name password : string) (w : World) (user : User) :
  outcome (dependencies.authenticate_user env name password) w = Ok user ->
  username user = name.
Proof.
  unfold dependencies.authenticate_user. rewrite outcome_bind.
  destruct (List.find (fun u => String.eqb (username u) name) (user_table w)) as [found |] eqn:E.
  - unfold outcome at 1, after at 1. rewrite (get_user_found _ _ _ E). cbn [fst snd].
    destruct (is_active found); cbn [negb]; run; [| discriminate].
    destruct (outcome (encoders.verify_password env password (hashed_password found)) w)
      as [[|] | e]; cbn [negb]; run; try discriminate.
    intros H. injection H as <-. now apply find_username in E.
  - destruct (get_user_missing _ _ E) as [-> _]. discriminate.
Qed.

(** What a refresh does, case by case on the subject of the decoded
    claims. *)
Lemma refresh_token_cases (env : Env) (rt : jwt.token) (w : World) :
  outcome (auth.refresh_token env (auth_schemas.mkRefreshToken rt)) w
  = match outcome (encoders.decode_token env rt) w with
    | Raise e => Raise e
    | Ok payload =>
        match outcome (dependencies.get_user (payload_get payload "sub")) w with
        | Raise e => Raise e
        | Ok user =>
            Ok (auth_schemas.mkToken
                  (encoders.encode_token env (auth.access_claims user)
                     (timedelta_minutes dependencies.ACCESS_TOKEN_EXPIRE_MINUTES))
                  (encoders.encode_token env (auth.refresh_claims user)
                     (timedelta_days dependencies.REFRESH_TOKEN_EXPIRE_DAYS))
                  "bearer")
        end
    end.
Proof.
  unfold auth.refresh_token. cbn [auth_schemas.rt_refresh_token].
  rewrite outcome_bind, decode_token_world.
  destruct (outcome (encoders.decode_token env rt) w) as [payload | e]; [| reflexivity].
  rewrite outcome_bind.
  destruct (outcome (dependencies.get_user (payload_get payload "sub")) w) as [user | e];
    reflexivity.
Qed.

Lemma get_user_ok_named (key : pyobj) (w : World) (user : User) :
  outcome (dependencies.get_user key) w = Ok user ->
  exists name,
    key = PyStr name
    /\ List.find (fun u => String.eqb (username u) name) (user_table w) = Some user.
Proof.
  unfold outcome, dependencies.get_user, bind, session_first, where_eq, User_username.
  destruct key as [| name | n]; cbn.
  - assert (E : List.find (fun _ : User => false) (user_table w) = None).
    { induction (user_table w); [reflexivity | assumption]. }
    rewrite E. cbn. discriminate.
  - destruct (List.find _ (user_table w)) as [found |] eqn:E; cbn.
    + intros H. injection H as <-. now exists name.
    + discriminate.
  - discriminate.
Qed.

(** C5.  The refresh token issued at login carries the subject and the
    expiry and nothing else: no role.  Presented later, while it is still
    valid, it yields a pair whose access token carries the role stored for
    that user in the directory at the time of the refresh, whatever the
    role was at login.  More generally every successful refresh issues an
    access token whose role is the stored role of the user its subject
    names. *)
Theorem refresh_reissues_current_role :
  forall (env_login env_refresh : Env) (w_login w_refresh : World)
         (name password : string) (pair : auth_schemas.Token) (current : User),
    outcome (auth.login_for_access_token env_login name password) w_login = Ok pair ->
    SECRET_KEY env_refresh = SECRET_KEY env_login ->
    now env_refresh
    < now env_login + timedelta_days dependencies.REFRESH_TOKEN_EXPIRE_DAYS ->
    List.find (fun u => String.eqb (username u) name) (user_table w_refresh) = Some current ->
    auth_schemas.refresh_token pair
    = jwt.Signed encoders.ALGORITHM
        (<["exp" := JInt (now env_login + 604800)]> {["sub" := JStr name]})
        (SECRET_KEY env_login)
    /\ (forall payload,
          codec.well_signed env_login (auth_schemas.refresh_token pair) payload ->
          payload !! "role" = None
          /\ forall key, is_Some (payload !! key) -> key = "sub" \/ key = "exp")
    /\ (exists pair' claims,
          outcome (auth.refresh_token env_refresh
                     (auth_schemas.mkRefreshToken (auth_schemas.refresh_token pair)))
                  w_refresh = Ok pair'
          /\ outcome (encoders.decode_token env_refresh (auth_schemas.access_token pair'))
                     w_refresh = Ok claims
          /\ claims !! "role" = Some (JStr (role_value (role current)))
          /\ claims !! "sub" = Some (JStr name))
    /\ (forall rt pair',
          outcome (auth.refresh_token env_refresh (auth_schemas.mkRefreshToken rt))
                  w_refresh = Ok pair' ->
          exists payload subject user claims,
            outcome (encoders.decode_token env_refresh rt) w_refresh = Ok payload
            /\ payload !! "sub" = Some (JStr subject)
            /\ List.find (fun u => String.eqb (username u) subject) (user_table w_refresh)
               = Some user
            /\ outcome (encoders.decode_token env_refresh (auth_schemas.access_token pair'))
                       w_refresh = Ok claims
            /\ claims !! "role" = Some (JStr (role_value (role user)))).
Proof.
  intros env_login env_refresh w_login w_refresh name password pair current
         Hlogin Hkey Hnow Hfind.
  apply login_issues in Hlogin as (user & Hauth & ->).
  apply authenticate_returns_named in Hauth as Hname.
  cbn [auth_schemas.refresh_token auth_schemas.access_token].
  assert (Hrefresh : encoders.encode_token env_login (auth.refresh_claims user)
                       (timedelta_days dependencies.REFRESH_TOKEN_EXPIRE_DAYS)
                     = jwt.Signed encoders.ALGORITHM
                         (<["exp" := JInt (now env_login + 604800)]> {["sub" := JStr name]})
                         (SECRET_KEY env_login)).
  { unfold encoders.encode_token, jwt.encode, auth.refresh_claims. now rewrite Hname. }
  assert (Hminutes : forall env : Env,
             now env < now env + timedelta_minutes dependencies.ACCESS_TOKEN_EXPIRE_MINUTES).
  { intros env. unfold timedelta_minutes, dependencies.ACCESS_TOKEN_EXPIRE_MINUTES. lia. }
  split; [exact Hrefresh | split; [| split]].
  - (* the claims of the refresh token *)
    rewrite Hrefresh. unfold codec.well_signed. intros payload H. injection H as <-.
    split.
    + rewrite lookup_insert_ne by discriminate. now rewrite lookup_singleton_ne.
    + intros key [v Hv].
      destruct (decide (key = "exp")) as [-> | Hexp]; [now right |].
      rewrite lookup_insert_ne in Hv by congruence.
      destruct (decide (key = "sub")) as [-> | Hsub]; [now left |].
      rewrite lookup_singleton_ne in Hv by congruence. discriminate.
  - (* the refresh at the later time *)
    eexists _, _. rewrite refresh_token_cases.
    rewrite (decode_encode_token env_login env_refresh _ _ _ (plain_refresh_claims _) Hkey Hnow).
    unfold payload_get. rewrite lookup_insert_ne by discriminate.
    unfold auth.refresh_claims. rewrite lookup_singleton_eq, Hname.
    unfold outcome at 1. rewrite (get_user_found _ _ _ Hfind). cbn [fst].
    split; [reflexivity |]. cbn [auth_schemas.access_token].
    rewrite (decode_encode_token env_refresh env_refresh _ _ _ (plain_access_claims _) eq_refl (Hminutes _)).
    split; [reflexivity |]. unfold auth.access_claims.
    apply find_username in Hfind as [-> _].
    split.
    + rewrite lookup_insert_ne by discriminate. apply lookup_insert_eq.
    + rewrite !lookup_insert_ne by discriminate. apply lookup_singleton_eq.
  - (* any successful refresh *)
    intros rt pair'. rewrite refresh_token_cases.
    destruct (outcome (encoders.decode_token env_refresh rt) w_refresh)
      as [payload | e] eqn:Edecode; [| discriminate].
    destruct (outcome (dependencies.get_user (payload_get payload "sub")) w_refresh)
      as [found | e] eqn:Eget; [| discriminate].
    intros H. injection H as <-.
    apply get_user_ok_named in Eget as (subject & Hsub & Hfound).
    exists payload, subject, found. eexists. split; [reflexivity |].
    split.
    { unfold payload_get in Hsub.
      destruct (payload !! "sub") as [[s | n] |]; try discriminate. congruence. }
    split; [exact Hfound |]. cbn [auth_schemas.access_token].
    rewrite (decode_encode_token env_refresh env_refresh _ _ _ (plain_access_claims _) eq_refl (Hminutes _)).
    split; [reflexivity |]. unfold auth.access_claims.
    rewrite lookup_insert_ne by discriminate. apply lookup_insert_eq.
Qed.

Lemma refresh_reissues_current_role_witness :
  role demo.alice = ADMIN
  /\ exists pair' claims,
       outcome (auth.refresh_token demo.later
                  (auth_schemas.mkRefreshToken
                     (auth_schemas.refresh_token demo.alice_login)))
               demo.world_restdowngrade = Ok pair'
       /\ outcome (encoders.decode_token demo.later (auth_schemas.access_token pair'))
                  demo.world_restdowngrade = Ok claims
       /\ claims !! "role" = Some (JStr (role_value USER))
       /\ claims !! "sub" = Some (JStr "alice").
Proof.
  split; [reflexivity |].
  apply (refresh_reissues_current_role
           demo.env demo.later demo.world demo.world_restdowngrade
           "alice" "Str0ng!Pw" demo.alice_login demo.alice_downgraded);
    reflexivity.
Defined.

(** C3 (what the code does).  A refresh whose token decodes and whose
    subject names no user of the directory fails with the 404 exception of
    [get_user]: the lookup raises before the handler's own test on the
    user, whose 401 is therefore never raised.  No pair is issued and the
    table is untouched. *)
Theorem refresh_unknown_subject_raises_not_found :
  forall (env : Env) (rt : jwt.token) (w : World)
         (payload : gmap string jval) (name : string),
    outcome (encoders.decode_token env rt) w = Ok payload ->
    payload !! "sub" = Some (JStr name) ->
    List.find (fun u => String.eqb (username u) name) (user_table w) = None ->
    outcome (auth.refresh_token env (auth_schemas.mkRefreshToken rt)) w = Raise NotFound
    /\ NotFound <> InvalidCredentials
    /\ NotFound <> HTTPException status.HTTP_401_UNAUTHORIZED "Invalid refresh token." [].
Proof.
  intros env rt w payload name Hdecode Hsub Hfind.
  rewrite refresh_token_cases, Hdecode.
  unfold payload_get. rewrite Hsub.
  destruct (get_user_missing _ _ Hfind) as [-> _].
  repeat split; discriminate.
Qed.

Lemma refresh_unknown_subject_raises_not_found_witness :
  outcome (auth.refresh_token demo.env (auth_schemas.mkRefreshToken demo.mallory_refresh))
          demo.world
  = Raise (HTTPException 404 "User not found" []).
Proof.
  apply (refresh_unknown_subject_raises_not_found
           demo.env demo.mallory_refresh demo.world
           (<["exp" := JInt 1700604800]> {["sub" := JStr "mallory"]}) "mallory");
    reflexivity.
Defined.

(* ===================================================================== *)
(** ** Registration *)
(* ===================================================================== *)

(** C9.  A registration whose username, or whose email, belongs to a user
    of the table raises the 409 exception and leaves everything as it
    was: no row is added, no row is changed, nothing is logged. *)
Theorem create_user_duplicate_is_conflict :
  forall (env : Env) (user : UserCreate) (current_user : User) (w : World) (existing : User),
    List.find (fun u => String.eqb (username u) (uc_username user)) (user_table w)
    = Some existing
    \/ List.find (fun u => String.eqb (email u) (uc_email user)) (user_table w)
       = Some existing ->
    (exists detail,
        outcome (auth.create_user env user current_user) w = Raise (Conflict detail))
    /\ after (auth.create_user env user current_user) w = w
    /\ user_table (after (auth.create_user env user current_user) w) = user_table w
    /\ In existing (user_table (after (auth.create_user env user current_user) w)).
Proof.
  intros env user current_user w existing Hdup.
  assert (Hin : In existing (user_table w)).
  { destruct Hdup as [H | H]; apply find_some in H; tauto. }
  assert (Hrun : exists detail,
             auth.create_user env user current_user w = (Raise (Conflict detail), w)).
  { unfold auth.create_user, bind, session_first, where_eq, User_username, User_email.
    destruct (List.find (fun u => String.eqb (username u) (uc_username user)) (user_table w))
      as [byname |] eqn:Ename.
    - now eexists.
    - destruct Hdup as [H | H]; [discriminate |]. rewrite H. now eexists. }
  destruct Hrun as [detail Hrun]. unfold outcome, after. rewrite Hrun. cbn [fst snd].
  repeat split; try assumption. now exists detail.
Qed.

Lemma create_user_duplicate_is_conflict_witness :
  (outcome (auth.create_user demo.env demo.duplicate_username demo.alice) demo.world
   = Raise (Conflict "L'utilisateur existe dejas.")
   /\ after (auth.create_user demo.env demo.duplicate_username demo.alice) demo.world
      = demo.world)
  /\ (outcome (auth.create_user demo.env demo.duplicate_email demo.alice) demo.world
      = Raise (Conflict "l'Email est deja utilise.")
      /\ after (auth.create_user demo.env demo.duplicate_email demo.alice) demo.world
         = demo.world).
Proof.
  split; (split; [reflexivity |]).
  - apply (create_user_duplicate_is_conflict
             demo.env demo.duplicate_username demo.alice demo.world demo.alice).
    left. reflexivity.
  - apply (create_user_duplicate_is_conflict
             demo.env demo.duplicate_email demo.alice demo.world demo.bob).
    right. reflexivity.
Defined.

(* ===================================================================== *)
(** ** Updating a user *)
(* ===================================================================== *)

Lemma find_replace_row (row : User) (tbl : list User) (user : User) :
  List.find (fun u => id u =? id row) tbl = Some user ->
  List.find (fun u => id u =? id row) (replace_row row tbl) = Some row.
Proof.
  unfold replace_row. induction tbl as [| r tbl IH]; [discriminate |].
  cbn [List.find List.map].
  destruct (id r =? id row) eqn:E.
  - now rewrite Z.eqb_refl.
  - rewrite E. exact IH.
Qed.

Lemma sqlmodel_update_inv (env : Env) (user : User) (d : UpdateData) (row : User) :
  sqlmodel_update env user d = Ok row ->
  id row = id user
  /\ hashed_password row = match d_hashed_password d with
                           | Some h => h
                           | None => hashed_password user
                           end
  /\ patch.applied (uu_username (body d)) (username user) (username row)
  /\ patch.applied (uu_email (body d)) (email user) (email row)
  /\ patch.applied_nullable (uu_first_name (body d)) (first_name user) (first_name row)
  /\ patch.applied_nullable (uu_last_name (body d)) (last_name user) (last_name row)
  /\ patch.applied (uu_is_active (body d)) (is_active user) (is_active row)
  /\ patch.applied_role env (uu_role (body d)) (role user) (role row)
  /\ created_at row = created_at user.
Proof.
  unfold sqlmodel_update, and_then, column, role_column.
  destruct (uu_username (body d)) eqn:E1; try discriminate;
    destruct (uu_email (body d)) eqn:E2; try discriminate;
    destruct (uu_is_active (body d)) eqn:E3; try discriminate;
    destruct (uu_role (body d)) as [| | s] eqn:E4; try discriminate;
    try (destruct (coerce_role env s) eqn:E5; try discriminate);
    intros H; injection H as <-; cbn;
    destruct (uu_first_name (body d)); destruct (uu_last_name (body d));
    cbn; repeat split; assumption.
Qed.

Lemma update_user_no_password (env : Env) (user_id : Z) (b : UserUpdate)
      (current_user : User) (w : World) :
  truthy (dict_get (uu_old_password b)) && truthy (dict_get (uu_new_password b)) = false ->
  users.update_user env user_id b current_user w
  = (user <- users.get_user_by_id user_id;;
     user <- session_update env user (mkUpdateData b None);;
     logger_info ("Updated user with ID " ++ pretty user_id ++ ".");;
     ret user) w.
Proof.
  intros H. unfold users.update_user, bind.
  destruct (users.get_user_by_id user_id w) as [[user | e] w']; [| reflexivity].
  destruct (dict_get (uu_old_password b)) as [old |];
    destruct (dict_get (uu_new_password b)) as [new |]; try reflexivity.
  rewrite H. reflexivity.
Qed.

Lemma sqlmodel_update_without_passwords (env : Env) (user : User) (b : UserUpdate) :
  sqlmodel_update env user (mkUpdateData (patch.without_passwords b) None)
  = sqlmodel_update env user (mkUpdateData b None).
Proof. reflexivity. Qed.

Lemma fits_within (s : string) : patch.within s -> fits s = true.
Proof. intros H. now apply Nat.leb_le. Qed.

Lemma fits_opt_within (o : option string) :
  (forall s, o = Some s -> patch.within s) -> fits_opt o = true.
Proof.
  destruct o as [s |]; [| reflexivity].
  intros H. apply fits_within. now apply H.
Qed.

Lemma no_other_holder (tbl : list User) (i : Z) (name : string) :
  (forall other, In other tbl -> id other <> i -> username other <> name) ->
  negb (existsb (fun r => negb (id r =? i) && String.eqb (username r) name) tbl) = true.
Proof.
  intros H. apply negb_true_iff, not_true_is_false. intros Hex.
  apply List.existsb_exists in Hex as (r & Hin & Hr).
  apply andb_true_iff in Hr as [Hid Hname].
  apply negb_true_iff, Z.eqb_neq in Hid. apply String.eqb_eq in Hname.
  exact (H r Hin Hid Hname).
Qed.

(** A writable body makes a row, and the table accepts it. *)
Lemma writable_row (env : Env) (tbl : list User) (user : User) (b : UserUpdate) :
  patch.writable env tbl user b ->
  exists row,
    sqlmodel_update env user (mkUpdateData b None) = Ok row
    /\ table_accepts tbl row = true.
Proof.
  intros ((Hu & He & Ha & Hr) & Hrole & (Fu & Fe & Ff & Fl) & Huniq).
  unfold patch.fill, patch.fill_nullable in *.
  unfold sqlmodel_update, and_then, column, role_column, table_accepts.
  cbn [body d_hashed_password].
  destruct (uu_username b) as [| | name]; [| contradiction |];
    (destruct (uu_email b) as [| | mail]; [| contradiction |]);
    (destruct (uu_is_active b) as [| | flag]; [| contradiction |]);
    (destruct (uu_role b) as [| | s]; [| contradiction |]);
    try (destruct (Hrole s eq_refl) as [r ->]);
    (eexists; split; [reflexivity |]);
    cbn [username email first_name last_name id];
    rewrite (fits_within _ Fu), (fits_within _ Fe);
    (destruct (uu_first_name b) as [| | first]; cbn [nullable_column fits_opt];
     [rewrite (fits_opt_within _ Ff) | | rewrite (fits_within _ Ff)]);
    (destruct (uu_last_name b) as [| | last]; cbn [nullable_column fits_opt];
     [rewrite (fits_opt_within _ Fl) | | rewrite (fits_within _ Fl)]);
    cbn [andb]; apply no_other_holder; exact Huniq.
Qed.

Lemma update_user_no_password_events (env : Env) (user_id : Z) (b : UserUpdate)
      (current_user : User) (w : World) :
  truthy (dict_get (uu_old_password b)) && truthy (dict_get (uu_new_password b)) = false ->
  events (after (users.update_user env user_id b current_user) w) = events w
  \/ events (after (users.update_user env user_id b current_user) w)
     = (events w ++ [Log "INFO" ("Updated user with ID " ++ pretty user_id ++ ".")])%list.
Proof.
  intros Hskip. unfold after. rewrite (update_user_no_password _ _ _ _ _ Hskip).
  unfold users.get_user_by_id, session_get, session_update. unfold bind, ret. cbv beta.
  destruct (List.find _ (user_table w)) as [user |]; cbv beta iota; [| now left].
  destruct (sqlmodel_update env user _) as [row | e]; [| now left].
  destruct (table_accepts (user_table w) row); [now right | now left].
Qed.

(** What a run does when the password test of the handler is false. *)
Lemma update_user_skipped (env : Env) (user_id : Z) (b : UserUpdate)
      (current_user : User) (w : World) :
  truthy (dict_get (uu_old_password b)) && truthy (dict_get (uu_new_password b)) = false ->
  users.update_user env user_id b current_user w
  = users.update_user env user_id (patch.without_passwords b) current_user w
  /\ (forall row,
        outcome (users.update_user env user_id b current_user) w = Ok row ->
        exists user,
          List.find (fun u => id u =? user_id) (user_table w) = Some user
          /\ hashed_password row = hashed_password user)
  /\ (forall secret hash,
        (In (PwdVerify secret hash)
            (events (after (users.update_user env user_id b current_user) w))
         -> In (PwdVerify secret hash) (events w))
        /\ (In (PwdHash secret)
               (events (after (users.update_user env user_id b current_user) w))
            -> In (PwdHash secret) (events w))).
Proof.
  intros Hskip. split; [| split].
  - rewrite (update_user_no_password _ _ _ _ _ Hskip).
    rewrite (update_user_no_password _ _ (patch.without_passwords b)) by reflexivity.
    reflexivity.
  - intros row. unfold outcome. rewrite (update_user_no_password _ _ _ _ _ Hskip).
    unfold users.get_user_by_id, session_get, session_update. unfold bind, ret. cbv beta.
    destruct (List.find _ (user_table w)) as [user |]; cbv beta iota; [| discriminate].
    destruct (sqlmodel_update env user _) as [row0 | e] eqn:Hrow; [| discriminate].
    destruct (table_accepts (user_table w) row0); [| discriminate].
    cbn. intros H. injection H as <-. exists user. split; [reflexivity |].
    now apply sqlmodel_update_inv in Hrow as (_ & Hhash & _).
  - intros secret hash.
    destruct (update_user_no_password_events env user_id b current_user w Hskip)
      as [-> | ->]; split; try tauto;
      intros Hin; apply in_app_or in Hin as [Hin | [Hin | []]];
      (assumption || discriminate).
Qed.

(** C10 (as the code has it).  When the body names a new password without
    the old one, or the old one without a new one, the password change is
    skipped: the request runs as the same body without its password
    fields, the password context is not called, and a successful update
    leaves the stored hash as it was.  The update completes when the
    requested user exists and the other fields can be written (no required
    column set to null, a known role, strings that fit, a username no other
    row holds): the handler then returns the rewritten row, in which every
    supplied field is applied, and logs the update. *)
Theorem update_user_skips_one_sided_password :
  forall (env : Env) (user_id : Z) (b : UserUpdate) (current_user : User) (w : World),
    patch.one_sided b ->
    users.update_user env user_id b current_user w
    = users.update_user env user_id (patch.without_passwords b) current_user w
    /\ (forall secret hash,
          (In (PwdVerify secret hash)
              (events (after (users.update_user env user_id b current_user) w))
           -> In (PwdVerify secret hash) (events w))
          /\ (In (PwdHash secret)
                 (events (after (users.update_user env user_id b current_user) w))
              -> In (PwdHash secret) (events w)))
    /\ (forall row,
          outcome (users.update_user env user_id b current_user) w = Ok row ->
          exists user,
            List.find (fun u => id u =? user_id) (user_table w) = Some user
            /\ hashed_password row = hashed_password user)
    /\ (forall user,
          List.find (fun u => id u =? user_id) (user_table w) = Some user ->
          patch.writable env (user_table w) user b ->
          exists row,
            outcome (users.update_user env user_id b current_user) w = Ok row
            /\ List.find (fun u => id u =? user_id)
                         (user_table (after (users.update_user env user_id b current_user) w))
               = Some row
            /\ (patch.applied (uu_username b) (username user) (username row)
                /\ patch.applied (uu_email b) (email user) (email row)
                /\ patch.applied_nullable (uu_first_name b) (first_name user)
                                          (first_name row)
                /\ patch.applied_nullable (uu_last_name b) (last_name user) (last_name row)
                /\ patch.applied (uu_is_active b) (is_active user) (is_active row)
                /\ patch.applied_role env (uu_role b) (role user) (role row))
            /\ events (after (users.update_user env user_id b current_user) w)
               = (events w
                  ++ [Log "INFO" ("Updated user with ID " ++ pretty user_id ++ ".")])%list).
Proof.
  intros env user_id b current_user w Hside.
  assert (Hskip : truthy (dict_get (uu_old_password b))
                  && truthy (dict_get (uu_new_password b)) = false).
  { destruct Hside as [[-> _] | [-> _]]; [reflexivity | apply andb_false_r]. }
  destruct (update_user_skipped env user_id b current_user w Hskip)
    as (Hsame & Hhash & Hevents).
  split; [exact Hsame | split; [exact Hevents | split; [exact Hhash |]]].
  intros user Hfind Hwritable.
  destruct (writable_row _ _ _ _ Hwritable) as (row & Hrow & Haccept).
  exists row.
  assert (Hid : id user = user_id).
  { apply find_some in Hfind as [_ H]. now apply Z.eqb_eq in H. }
  assert (Hrun : users.update_user env user_id b current_user w
                 = (Ok row,
                    mkWorld (replace_row row (user_table w)) (user_id_seq w)
                            (events w ++ [Log "INFO" ("Updated user with ID "
                                                      ++ pretty user_id ++ ".")]))).
  { rewrite (update_user_no_password _ _ _ _ _ Hskip).
    unfold users.get_user_by_id, session_get, session_update. unfold bind, ret. cbv beta.
    rewrite Hfind. cbv beta iota. rewrite Hrow, Haccept. reflexivity. }
  apply sqlmodel_update_inv in Hrow as Hinv. cbn [body d_hashed_password] in Hinv.
  destruct Hinv as (Hrid & _ & Hu & He & Hf & Hl & Ha & Hr & _).
  unfold outcome, after. rewrite Hrun. cbn [fst snd user_table events].
  split; [reflexivity | split; [| split]].
  - rewrite <- Hid, <- Hrid in *. now apply find_replace_row with (user := user).
  - repeat split; assumption.
  - reflexivity.
Qed.

Lemma update_user_skips_one_sided_password_witness :
  exists row,
    outcome (users.update_user demo.env 3 demo.lone_old_password_rename demo.alice)
            demo.world = Ok row
    /\ username row = "caroline"
    /\ email row = "caroline@example.org"
    /\ first_name row = Some "Caroline"
    /\ is_active row = false
    /\ role row = ADMIN
    /\ hashed_password row = hashed_password demo.carol.
Proof.
  destruct (update_user_skips_one_sided_password
              demo.env 3 demo.lone_old_password_rename demo.alice demo.world)
    as (_ & _ & Hhash & Hdone).
  - right. split; [reflexivity | now exists "C4rol?pass"].
  - destruct (Hdone demo.carol) as (row & Hout & _ & (Hu & He & Hf & _ & Ha & Hr) & _).
    + reflexivity.
    + split; [repeat split; discriminate | split; [| split]].
      * intros s H. injection H as <-. now exists ADMIN.
      * unfold patch.within. cbn. repeat split; try lia. intros v H. discriminate.
      * intros other [<- | [<- | [<- | []]]] Hne; cbn; (discriminate || contradiction).
    + exists row. destruct (Hhash row Hout) as (user & Hfind & Hsame).
      injection Hfind as <-.
      cbn in Hu, He, Hf, Ha, Hr. injection Hr as <-.
      repeat split; assumption.
Defined.

(** C10, refuted as stated: a body that names a new password and no old
    one does not complete when the requested user is unknown (404), nor
    when it also names a username that another row holds (the unique index
    refuses the row), and the table is then as before. *)
Lemma update_user_one_sided_can_fail :
  patch.one_sided demo.lone_new_password
  /\ outcome (users.update_user demo.env 9 demo.lone_new_password demo.alice) demo.world
     = Raise (HTTPException status.HTTP_404_NOT_FOUND "User not found." [])
  /\ patch.one_sided demo.lone_new_password_taken_name
  /\ outcome (users.update_user demo.env 3 demo.lone_new_password_taken_name demo.alice)
             demo.world
     = Raise constraint_violation
  /\ after (users.update_user demo.env 3 demo.lone_new_password_taken_name demo.alice)
           demo.world
     = demo.world.
Proof.
  split; [left; split; [reflexivity | now exists "N3w!pass"] |].
  split; [reflexivity |].
  split; [left; split; [reflexivity | now exists "N3w!pass"] |].
  split; reflexivity.
Qed.

(** C1 (what the code does).  A PATCH that names both passwords, with an
    old password the context verifies against the stored hash, stores the
    hash of the new password whatever that password is: the handler calls
    the password context twice and the validator not at all.  So a new
    password the policy refuses, such as ["abc"], is accepted and replaces
    the stored hash. *)
Theorem update_user_stores_unvalidated_password :
  forall (env : Env) (user_id : Z) (b : UserUpdate) (current_user : User) (w : World)
         (user row : User) (old_password new_password hashed : string),
    List.find (fun u => id u =? user_id) (user_table w) = Some user ->
    uu_old_password b = Val old_password ->
    uu_new_password b = Val new_password ->
    old_password <> "" ->
    new_password <> "" ->
    passlib.verify (pwd_context env) old_password (hashed_password user) = Ok true ->
    passlib.hash (pwd_context env) new_password = Ok hashed ->
    sqlmodel_update env user (mkUpdateData b (Some hashed)) = Ok row ->
    table_accepts (user_table w) row = true ->
    outcome (users.update_user env user_id b current_user) w = Ok row
    /\ hashed_password row = hashed
    /\ List.find (fun u => id u =? user_id)
                 (user_table (after (users.update_user env user_id b current_user) w))
       = Some row
    /\ events (after (users.update_user env user_id b current_user) w)
       = (events w
          ++ [PwdVerify old_password (hashed_password user);
              PwdHash new_password;
              Log "INFO" ("Updated user with ID " ++ pretty user_id ++ ".")])%list.
Proof.
  intros env user_id b current_user w user row old_password new_password hashed
         Hfind Hold Hnew Hold_ne Hnew_ne Hverify Hhash Hrow Haccept.
  assert (Hid : id user = user_id).
  { apply find_some in Hfind as [_ H]. now apply Z.eqb_eq in H. }
  assert (Htruthy : forall s, s <> "" -> truthy (Some s) = true).
  { intros s Hs. cbn. destruct (String.eqb_spec s ""); [contradiction | reflexivity]. }
  assert (Hrun : users.update_user env user_id b current_user w
                 = (Ok row,
                    mkWorld (replace_row row (user_table w)) (user_id_seq w)
                            (((events w ++ [PwdVerify old_password (hashed_password user)])
                                ++ [PwdHash new_password])
                               ++ [Log "INFO" ("Updated user with ID "
                                               ++ pretty user_id ++ ".")]))).
  { unfold users.update_user, users.get_user_by_id, session_get.
    unfold bind at 1. unfold bind at 1. cbv beta. rewrite Hfind. cbv beta iota.
    unfold ret at 1. cbv beta iota.
    rewrite Hold, Hnew. cbn [dict_get].
    rewrite (Htruthy _ Hold_ne), (Htruthy _ Hnew_ne). cbn [andb].
    unfold encoders.verify_password, encoders.hash_password, session_update,
      logger_info, emit, lift, bind, ret. cbv beta iota.
    rewrite Hverify. cbv beta iota. rewrite Hhash. cbv beta iota.
    cbn [user_table user_id_seq events]. rewrite Hrow, Haccept. reflexivity. }
  apply sqlmodel_update_inv in Hrow as (Hrid & Hhashed & _).
  cbn [d_hashed_password] in Hhashed.
  unfold outcome, after. rewrite Hrun. cbn [fst snd user_table events].
  split; [reflexivity | split; [exact Hhashed | split]].
  - rewrite <- Hid, <- Hrid in *. now apply find_replace_row with (user := user).
  - now rewrite <- !app_assoc.
Qed.

Lemma update_user_stores_unvalidated_password_witness :
  outcome (dependencies.validate_password "abc") demo.world
  = Raise (policy.WeakPassword "Password must be at least 6 characters long.")
  /\ exists row,
       outcome (users.update_user demo.env 3 demo.weak_change demo.alice) demo.world
       = Ok row
       /\ hashed_password row = demo.digest "abc"
       /\ hashed_password row <> hashed_password demo.carol.
Proof.
  split; [reflexivity |].
  eexists.
  destruct (update_user_stores_unvalidated_password
              demo.env 3 demo.weak_change demo.alice demo.world demo.carol
              (mkUser 3 "carol" "carol@example.org" None None
                      (demo.digest "abc") USER true 1690000300 1700000000)
              "C4rol?pass" "abc" (demo.digest "abc"))
    as (Hout & Hhash & _); try reflexivity; try discriminate.
  split; [exact Hout | split; [reflexivity | discriminate]].
Defined.

(* ===================================================================== *)
(** ** The password hasher *)
(* ===================================================================== *)

Lemma verify_password_outcome (env : Env) (plain hashed : string) (w : World) :
  outcome (encoders.verify_password env plain hashed) w
  = passlib.verify (pwd_context env) plain hashed.
Proof. reflexivity. Qed.

(** C2 (as the code has it).  [verify_password] returns a boolean exactly
    when the password context identifies the hash string as one of its
    schemes and the scheme returns that boolean.  It has no handler: for a
    hash string the context does not identify it raises
    [UnknownHashError], and an error of the scheme itself is raised
    unchanged; in neither case does it return false. *)
Theorem verify_password_propagates_context_errors :
  forall (env : Env) (plain hashed : string) (w : World),
    (forall b,
        outcome (encoders.verify_password env plain hashed) w = Ok b
        <-> passlib.scheme_identify (pwd_context env) hashed = true
            /\ passlib.scheme_verify (pwd_context env) plain hashed = Ok b)
    /\ (forall e,
          outcome (encoders.verify_password env plain hashed) w = Raise e
          <-> (passlib.scheme_identify (pwd_context env) hashed = false
               /\ e = UnknownHashError)
              \/ (passlib.scheme_identify (pwd_context env) hashed = true
                  /\ passlib.scheme_verify (pwd_context env) plain hashed = Raise e))
    /\ events (after (encoders.verify_password env plain hashed) w)
       = (events w ++ [PwdVerify plain hashed])%list.
Proof.
  intros env plain hashed w. rewrite verify_password_outcome. unfold passlib.verify.
  destruct (passlib.scheme_identify (pwd_context env) hashed).
  - split; [| split].
    + intros b. split; [now split | now intros [_ H]].
    + intros e. split; [intros H; right; now split |].
      intros [[H _] | [_ H]]; [discriminate | assumption].
    + reflexivity.
  - split; [| split].
    + intros b. split; [discriminate | intros [H _]; discriminate].
    + intros e. split.
      * intros H. injection H as <-. left. now split.
      * intros [[_ ->] | [H _]]; [reflexivity | discriminate].
    + reflexivity.
Qed.

(** C2, refuted as stated: on a hash string that is not a salted hash at
    all, [verify_password] raises instead of returning false. *)
Lemma verify_password_raises_on_malformed_hash :
  demo.identify "not-a-salted-hash" = false
  /\ outcome (encoders.verify_password demo.env "Str0ng!Pw" "not-a-salted-hash") demo.world
     = Raise UnknownHashError
  /\ outcome (encoders.verify_password demo.env "Str0ng!Pw" "not-a-salted-hash") demo.world
     <> Ok false.
Proof.
  split; [reflexivity | split; [reflexivity | discriminate]].
Qed.

(* ===================================================================== *)
(** ** Further properties of the token codec *)
(* ===================================================================== *)

(** X1.  A token encoded from plain claims (of the registered claims at
    most a string subject, as the login and refresh handlers give) with
    lifetime [delta] decodes, under the same secret and while the clock is
    before the moment of encoding plus [delta], to the claims it was
    given, with the expiry set to that moment whatever expiry the claims
    already carried; from that moment on decoding raises the "Token
    expired." exception. *)
Theorem encode_token_round_trip :
  forall (env env' : Env) (data : gmap string jval) (delta : Z) (w : World),
    codec.plain data ->
    SECRET_KEY env' = SECRET_KEY env ->
    (now env' < now env + delta ->
     exists claims,
       outcome (encoders.decode_token env' (encoders.encode_token env data delta)) w
       = Ok claims
       /\ claims !! "exp" = Some (JInt (now env + delta))
       /\ forall key, key <> "exp" -> claims !! key = data !! key)
    /\ (now env + delta <= now env' ->
        outcome (encoders.decode_token env' (encoders.encode_token env data delta)) w
        = Raise TokenExpired).
Proof.
  intros env env' data delta w Hplain Hkey. split.
  - intros Hnow. eexists. split; [now apply decode_encode_token |].
    split; [apply lookup_insert_eq |].
    intros key Hne. now rewrite lookup_insert_ne.
  - intros Hnow. unfold encoders.encode_token, jwt.encode.
    rewrite decode_token_signed by now rewrite Hkey.
    now rewrite plain_claims_expired.
Qed.

Lemma encode_token_round_trip_witness :
  (exists claims,
      outcome (encoders.decode_token demo.later
                 (encoders.encode_token demo.env (auth.refresh_claims demo.alice)
                    (timedelta_days 7))) demo.world = Ok claims
      /\ claims !! "exp" = Some (JInt 1700604800)
      /\ forall key, key <> "exp" -> claims !! key = auth.refresh_claims demo.alice !! key)
  /\ outcome (encoders.decode_token demo.stale
                (encoders.encode_token demo.env (auth.access_claims demo.alice)
                   (timedelta_minutes 15))) demo.world
     = Raise TokenExpired.
Proof.
  split.
  - apply (encode_token_round_trip demo.env demo.later
             (auth.refresh_claims demo.alice) (timedelta_days 7) demo.world
             (plain_refresh_claims demo.alice) eq_refl).
    reflexivity.
  - apply (encode_token_round_trip demo.env demo.stale
             (auth.access_claims demo.alice) (timedelta_minutes 15) demo.world
             (plain_access_claims demo.alice) eq_refl).
    discriminate.
Defined.

(* ===================================================================== *)
(** ** Further properties of the authenticator and of login *)
(* ===================================================================== *)

Lemma authenticate_user_cases (env : Env) (name password : string) (w : World) :
  dependencies.authenticate_user env name password w
  = match List.find (fun u => String.eqb (username u) name) (user_table w) with
    | None =>
        (Raise NotFound, logged w [Log "WARNING" ("User not found: " ++ name)])
    | Some user =>
        if negb (is_active user)
        then (Raise Locked,
              logged w [Log "WARNING" ("Inactive user login attempt: " ++ name)])
        else
          match passlib.verify (pwd_context env) password (hashed_password user) with
          | Ok true =>
              (Ok user,
               logged w [PwdVerify password (hashed_password user);
                         Log "INFO" ("User authenticated successfully: " ++ name)])
          | Ok false =>
              (Raise InvalidCredentials,
               logged w [PwdVerify password (hashed_password user);
                         Log "WARNING" ("Invalid password attempt for user: " ++ name)])
          | Raise e => (Raise e, logged w [PwdVerify password (hashed_password user)])
          end
    end.
Proof.
  unfold dependencies.authenticate_user, dependencies.get_user, session_first,
    where_eq, User_username, encoders.verify_password, logger_warning, logger_info,
    emit, lift, logged.
  unfold bind, ret, raise. cbv beta.
  destruct (List.find _ (user_table w)) as [user |]; cbv beta iota; [| reflexivity].
  destruct (is_active user); cbn [negb]; [| reflexivity].
  cbn [user_table user_id_seq events].
  destruct (passlib.verify _ _ _) as [[|] | e];
    cbn [negb user_table user_id_seq events];
    rewrite <- ?app_assoc; reflexivity.
Qed.

Lemma authenticate_user_ok_iff (env : Env) (name password : string) (w : World) (user : User) :
  outcome (dependencies.authenticate_user env name password) w = Ok user
  <-> List.find (fun u => String.eqb (username u) name) (user_table w) = Some user
      /\ is_active user = true
      /\ passlib.verify (pwd_context env) password (hashed_password user) = Ok true.
Proof.
  unfold outcome. rewrite authenticate_user_cases.
  destruct (List.find _ (user_table w)) as [found |].
  - destruct (is_active found) eqn:Eactive; cbn [negb].
    + destruct (passlib.verify _ _ _) as [[|] | e] eqn:Everify; cbn [fst];
        split; try discriminate.
      * intros H. injection H as <-. auto.
      * now intros [H _]; injection H as <-.
      * intros (H & _ & Hv). injection H as <-. congruence.
      * intros (H & _ & Hv). injection H as <-. congruence.
    + cbn [fst]. split; [discriminate |].
      intros (H & Ha & _). injection H as <-. congruence.
  - cbn [fst]. split; [discriminate |]. intros (H & _). discriminate.
Qed.

Lemma authenticate_user_table (env : Env) (name password : string) (w : World) :
  user_table (after (dependencies.authenticate_user env name password) w) = user_table w
  /\ user_id_seq (after (dependencies.authenticate_user env name password) w)
     = user_id_seq w.
Proof.
  unfold after. rewrite authenticate_user_cases.
  destruct (List.find _ (user_table w)) as [found |]; [| split; reflexivity].
  destruct (is_active found); cbn [negb]; [| split; reflexivity].
  destruct (passlib.verify _ _ _) as [[|] | e]; split; reflexivity.
Qed.

(** X3.  [authenticate_user] returns a user exactly when the table holds
    a user of that username who is active and whose stored hash the
    password context verifies against the submitted password; the user it
    returns is that row.  Whatever the outcome, the table is as before. *)
Theorem authenticate_user_returns_verified_active_user :
  forall (env : Env) (name password : string) (w : World),
    (forall user,
        outcome (dependencies.authenticate_user env name password) w = Ok user
        <-> List.find (fun u => String.eqb (username u) name) (user_table w) = Some user
            /\ is_active user = true
            /\ passlib.verify (pwd_context env) password (hashed_password user) = Ok true)
    /\ user_table (after (dependencies.authenticate_user env name password) w)
       = user_table w
    /\ user_id_seq (after (dependencies.authenticate_user env name password) w)
       = user_id_seq w.
Proof.
  intros env name password w. split.
  - intros user. apply authenticate_user_ok_iff.
  - apply authenticate_user_table.
Qed.

(** X4.  The failures of [authenticate_user]: an unknown username raises
    the 404 exception, so a caller can tell it from a wrong password, which
    raises the credentials exception for an active user; an error of the
    password context is raised unchanged.  Every line it logs is one of
    four fixed phrases followed by the username: the submitted password is
    never written to the log. *)
Theorem authenticate_user_failures_and_log :
  forall (env : Env) (name password : string) (w : World),
    (List.find (fun u => String.eqb (username u) name) (user_table w) = None ->
     outcome (dependencies.authenticate_user env name password) w = Raise NotFound)
    /\ (forall user,
          List.find (fun u => String.eqb (username u) name) (user_table w) = Some user ->
          is_active user = true ->
          (passlib.verify (pwd_context env) password (hashed_password user) = Ok false ->
           outcome (dependencies.authenticate_user env name password) w
           = Raise InvalidCredentials)
          /\ (forall e,
                passlib.verify (pwd_context env) password (hashed_password user) = Raise e ->
                outcome (dependencies.authenticate_user env name password) w = Raise e))
    /\ (forall level message,
          In (Log level message)
             (events (after (dependencies.authenticate_user env name password) w)) ->
          In (Log level message) (events w)
          \/ exists phrase,
               In phrase ["User not found: "; "Inactive user login attempt: ";
                          "User authenticated successfully: ";
                          "Invalid password attempt for user: "]
               /\ message = phrase ++ name).
Proof.
  intros env name password w. unfold outcome, after.
  rewrite authenticate_user_cases.
  split; [| split].
  - intros ->. reflexivity.
  - intros user -> ->. cbn [negb]. split.
    + intros ->. reflexivity.
    + intros e ->. reflexivity.
  - intros level message.
    assert (Hone : forall l phrase,
               In phrase ["User not found: "; "Inactive user login attempt: ";
                          "User authenticated successfully: ";
                          "Invalid password attempt for user: "] ->
               In (Log level message) (events w ++ l) ->
               (forall ev, In ev l -> ev = Log level message ->
                           message = phrase ++ name) ->
               In (Log level message) (events w)
               \/ exists phrase,
                    In phrase ["User not found: "; "Inactive user login attempt: ";
                               "User authenticated successfully: ";
                               "Invalid password attempt for user: "]
                    /\ message = phrase ++ name).
    { intros l phrase Hp Hin Hl. apply in_app_or in Hin as [Hin | Hin]; [now left |].
      right. exists phrase. split; [exact Hp |]. now apply (Hl _ Hin). }
    destruct (List.find _ (user_table w)) as [found |].
    + destruct (is_active found); cbn [negb].
      * destruct (passlib.verify _ _ _) as [[|] | e]; cbn [snd logged events]; intros Hin.
        -- apply (Hone _ "User authenticated successfully: " ltac:(cbn; tauto) Hin).
           intros ev [<- | [<- | []]] Hev; [discriminate | congruence].
        -- apply (Hone _ "Invalid password attempt for user: " ltac:(cbn; tauto) Hin).
           intros ev [<- | [<- | []]] Hev; [discriminate | congruence].
        -- apply (Hone _ "User not found: " ltac:(cbn; tauto) Hin).
           intros ev [<- | []] Hev. discriminate.
      * cbn [snd logged events]. intros Hin.
        apply (Hone _ "Inactive user login attempt: " ltac:(cbn; tauto) Hin).
        intros ev [<- | []] Hev. congruence.
    + cbn [snd logged events]. intros Hin.
      apply (Hone _ "User not found: " ltac:(cbn; tauto) Hin).
      intros ev [<- | []] Hev. congruence.
Qed.

Lemma authenticate_user_failures_and_log_witness :
  outcome (dependencies.authenticate_user demo.env "mallory" "whatever") demo.world
  = Raise NotFound
  /\ outcome (dependencies.authenticate_user demo.env "alice" "not alice's") demo.world
     = Raise InvalidCredentials.
Proof.
  split.
  - apply (authenticate_user_failures_and_log demo.env "mallory" "whatever" demo.world).
    reflexivity.
  - destruct (authenticate_user_failures_and_log
                demo.env "alice" "not alice's" demo.world) as (_ & Hwrong & _).
    destruct (Hwrong demo.alice eq_refl eq_refl) as [Hfalse _].
    apply Hfalse. reflexivity.
Defined.

(** X5.  [login_for_access_token] fails exactly when [authenticate_user]
    fails, and with the same exception: its own 401 "Informations
    utilisateurs invalides." is never raised.  When it succeeds the token
    type is "bearer" and the access token is signed with the server's
    secret over the username, the role stored at that moment and an expiry
    15 minutes ahead. *)
Theorem login_issues_access_token :
  forall (env : Env) (name password : string) (w : World),
    (forall e,
        outcome (auth.login_for_access_token env name password) w = Raise e
        <-> outcome (dependencies.authenticate_user env name password) w = Raise e)
    /\ (forall pair,
          outcome (auth.login_for_access_token env name password) w = Ok pair ->
          exists user,
            List.find (fun u => String.eqb (username u) name) (user_table w) = Some user
            /\ is_active user = true
            /\ auth_schemas.token_type pair = "bearer"
            /\ auth_schemas.access_token pair
               = jwt.Signed encoders.ALGORITHM
                   (<["exp" := JInt (now env + 900)]>
                      (<["role" := JStr (role_value (role user))]>
                         {["sub" := JStr name]}))
                   (SECRET_KEY env)).
Proof.
  intros env name password w. split.
  - intros e. unfold auth.login_for_access_token. rewrite outcome_bind.
    destruct (outcome (dependencies.authenticate_user env name password) w) as [user | e'].
    + cbn [object_truth negb]. run. split; discriminate.
    + split; intros H; injection H as <-; reflexivity.
  - intros pair Hlogin. apply login_issues in Hlogin as (user & Hauth & ->).
    pose proof (authenticate_returns_named _ _ _ _ _ Hauth) as Hname.
    apply authenticate_user_ok_iff in Hauth as (Hfind & Hactive & _).
    exists user. repeat split; try assumption.
    cbn [auth_schemas.access_token]. unfold encoders.encode_token, jwt.encode, auth.access_claims.
    now rewrite Hname.
Qed.

(** X6.  The refresh endpoint does not tell an access token from a
    refresh token: presented with the access token of a login, within its
    15 minutes and while the user exists, it issues a new pair, whose
    refresh token is valid for 7 days from then. *)
Theorem refresh_accepts_access_token :
  forall (env env' : Env) (w w' : World) (name password : string)
         (pair : auth_schemas.Token) (current : User),
    outcome (auth.login_for_access_token env name password) w = Ok pair ->
    SECRET_KEY env' = SECRET_KEY env ->
    now env' < now env + 900 ->
    List.find (fun u => String.eqb (username u) name) (user_table w') = Some current ->
    exists pair',
      outcome (auth.refresh_token env'
                 (auth_schemas.mkRefreshToken (auth_schemas.access_token pair))) w'
      = Ok pair'
      /\ auth_schemas.refresh_token pair'
         = jwt.Signed encoders.ALGORITHM
             (<["exp" := JInt (now env' + 604800)]> {["sub" := JStr name]})
             (SECRET_KEY env').
Proof.
  intros env env' w w' name password pair current Hlogin Hkey Hnow Hfind.
  apply login_issues in Hlogin as (user & Hauth & ->).
  apply authenticate_returns_named in Hauth as Hname.
  cbn [auth_schemas.access_token].
  eexists. rewrite refresh_token_cases.
  rewrite (decode_encode_token env env' _ _ _ (plain_access_claims _) Hkey Hnow).
  unfold payload_get, auth.access_claims.
  rewrite !lookup_insert_ne by discriminate. rewrite lookup_singleton_eq, Hname.
  unfold outcome at 1. rewrite (get_user_found _ _ _ Hfind). cbn [fst].
  split; [reflexivity |]. cbn [auth_schemas.refresh_token].
  unfold encoders.encode_token, jwt.encode, auth.refresh_claims.
  apply find_username in Hfind as [-> _]. reflexivity.
Qed.

Lemma refresh_accepts_access_token_witness :
  exists pair',
    outcome (auth.refresh_token demo.env
               (auth_schemas.mkRefreshToken (auth_schemas.access_token demo.alice_login)))
            demo.world
    = Ok pair'
    /\ auth_schemas.refresh_token pair'
       = jwt.Signed "HS256"
           (<["exp" := JInt 1700604800]> {["sub" := JStr "alice"]}) "server-secret".
Proof.
  apply (refresh_accepts_access_token demo.env demo.env demo.world demo.world
           "alice" "Str0ng!Pw" demo.alice_login demo.alice); reflexivity.
Defined.

Lemma refresh_token_found (env : Env) (rt : jwt.token) (w : World)
      (payload : gmap string jval) (name : string) (user : User) :
  outcome (encoders.decode_token env rt) w = Ok payload ->
  payload !! "sub" = Some (JStr name) ->
  List.find (fun u => String.eqb (username u) name) (user_table w) = Some user ->
  auth.refresh_token env (auth_schemas.mkRefreshToken rt) w
  = (Ok (auth_schemas.mkToken
           (encoders.encode_token env (auth.access_claims user)
              (timedelta_minutes dependencies.ACCESS_TOKEN_EXPIRE_MINUTES))
           (encoders.encode_token env (auth.refresh_claims user)
              (timedelta_days dependencies.REFRESH_TOKEN_EXPIRE_DAYS))
           "bearer"), w).
Proof.
  intros Hdecode Hsub Hfind.
  pose proof (decode_token_world env rt w) as Hworld.
  unfold outcome in Hdecode. unfold after in Hworld.
  unfold auth.refresh_token. cbn [auth_schemas.rt_refresh_token].
  unfold bind at 1. destruct (encoders.decode_token env rt w) as [r w0].
  cbn [fst snd] in Hdecode, Hworld. subst r w0.
  unfold payload_get. rewrite Hsub.
  unfold bind at 1. rewrite (get_user_found _ _ _ Hfind). reflexivity.
Qed.

(** X7.  A refresh with a token that decodes and whose subject names a
    user of the table succeeds whether or not that user is active, and
    leaves the whole state as it was: nothing records that the token was
    used, so the same token presented again gives the same answer. *)
Theorem refresh_token_is_replayable :
  forall (env : Env) (rt : jwt.token) (w : World)
         (payload : gmap string jval) (name : string) (user : User),
    outcome (encoders.decode_token env rt) w = Ok payload ->
    payload !! "sub" = Some (JStr name) ->
    List.find (fun u => String.eqb (username u) name) (user_table w) = Some user ->
    (exists pair,
        outcome (auth.refresh_token env (auth_schemas.mkRefreshToken rt)) w = Ok pair)
    /\ after (auth.refresh_token env (auth_schemas.mkRefreshToken rt)) w = w
    /\ outcome (auth.refresh_token env (auth_schemas.mkRefreshToken rt);;
                auth.refresh_token env (auth_schemas.mkRefreshToken rt)) w
       = outcome (auth.refresh_token env (auth_schemas.mkRefreshToken rt)) w.
Proof.
  intros env rt w payload name user Hdecode Hsub Hfind.
  pose proof (refresh_token_found _ _ _ _ _ _ Hdecode Hsub Hfind) as Hrun.
  unfold outcome, after, bind. rewrite Hrun. cbn [fst snd].
  split; [now eexists | split; [reflexivity |]].
  rewrite Hrun. reflexivity.
Qed.

Lemma refresh_token_is_replayable_witness :
  is_active demo.bob = false
  /\ (exists pair,
         outcome (auth.refresh_token demo.later
                    (auth_schemas.mkRefreshToken
                       (encoders.encode_token demo.env (auth.refresh_claims demo.bob)
                          (timedelta_days 7)))) demo.world = Ok pair)
  /\ after (auth.refresh_token demo.later
              (auth_schemas.mkRefreshToken
                 (encoders.encode_token demo.env (auth.refresh_claims demo.bob)
                    (timedelta_days 7)))) demo.world = demo.world.
Proof.
  split; [reflexivity |].
  destruct (refresh_token_is_replayable demo.later
              (encoders.encode_token demo.env (auth.refresh_claims demo.bob)
                 (timedelta_days 7))
              demo.world
              (<["exp" := JInt 1700604800]> {["sub" := JStr "bob"]}) "bob" demo.bob)
    as (Hok & Hsame & _); try reflexivity.
  split; assumption.
Defined.

(* ===================================================================== *)
(** ** The access guard *)
(* ===================================================================== *)

Lemma get_user_table (key : pyobj) (w : World) :
  user_table (after (dependencies.get_user key) w) = user_table w
  /\ user_id_seq (after (dependencies.get_user key) w) = user_id_seq w.
Proof.
  unfold after, dependencies.get_user, bind, session_first, where_eq.
  destruct key as [| name | n]; cbn.
  - destruct (List.find _ (user_table w)); split; reflexivity.
  - destruct (List.find _ (user_table w)); split; reflexivity.
  - split; reflexivity.
Qed.

Lemma get_user_ok_in (key : pyobj) (w : World) (user : User) :
  outcome (dependencies.get_user key) w = Ok user -> In user (user_table w).
Proof.
  intros H. apply get_user_ok_named in H as (name & _ & Hfind).
  now apply find_username in Hfind.
Qed.

Lemma get_current_user_cases (env : Env) (token_data : pyobj -> result pyobj)
      (tok : jwt.token) (w : World) :
  dependencies.get_current_user env token_data tok w
  = match outcome (encoders.decode_token env tok) w with
    | Raise e => (Raise e, w)
    | Ok payload =>
        if negb (py_bool (payload_get payload "sub"))
        then (Raise InvalidCredentials,
              logged w [Log "WARNING" "Invalid token: Missing username"])
        else
          match token_data (payload_get payload "sub") with
          | Raise e => (Raise e, w)
          | Ok key => dependencies.get_user key w
          end
    end.
Proof.
  pose proof (decode_token_world env tok w) as Hworld.
  unfold outcome. unfold after in Hworld.
  unfold dependencies.get_current_user. unfold bind at 1.
  destruct (encoders.decode_token env tok w) as [[payload | e] w0];
    cbn [fst snd] in *; subst w0; [| reflexivity].
  destruct (py_bool (payload_get payload "sub")); cbn [negb].
  - unfold bind at 1, lift.
    destruct (token_data (payload_get payload "sub")); reflexivity.
  - reflexivity.
Qed.

(** X8.  [get_current_user] answers a bearer token that decodes and whose
    subject is a non-empty username, kept by [TokenData], with the row the
    table holds for that username now: the role and the other claims of the
    token are not looked at, so the answer carries the current role, and a
    refresh token is accepted as a bearer token.  The state is left as it
    was. *)
Theorem get_current_user_returns_stored_row :
  forall (env : Env) (token_data : pyobj -> result pyobj) (tok : jwt.token) (w : World)
         (payload : gmap string jval) (name : string) (user : User),
    outcome (encoders.decode_token env tok) w = Ok payload ->
    payload !! "sub" = Some (JStr name) ->
    name <> "" ->
    token_data (PyStr name) = Ok (PyStr name) ->
    List.find (fun u => String.eqb (username u) name) (user_table w) = Some user ->
    outcome (dependencies.get_current_user env token_data tok) w = Ok user
    /\ after (dependencies.get_current_user env token_data tok) w = w.
Proof.
  intros env token_data tok w payload name user Hdecode Hsub Hname Htd Hfind.
  unfold outcome, after. rewrite get_current_user_cases, Hdecode.
  unfold payload_get. rewrite Hsub. cbn [py_bool].
  destruct (String.eqb_spec name ""); [contradiction |]. cbn [negb].
  rewrite Htd, (get_user_found _ _ _ Hfind). split; reflexivity.
Qed.

Lemma get_current_user_returns_stored_row_witness :
  outcome (dependencies.get_current_user demo.later demo.token_data
             (auth_schemas.refresh_token demo.alice_login))
          demo.world_restdowngrade
  = Ok demo.alice_downgraded
  /\ role demo.alice_downgraded = USER.
Proof.
  split; [| reflexivity].
  apply (get_current_user_returns_stored_row demo.later demo.token_data
           (auth_schemas.refresh_token demo.alice_login) demo.world_restdowngrade
           (<["exp" := JInt 1700604800]> {["sub" := JStr "alice"]}) "alice"
           demo.alice_downgraded);
    try reflexivity.
  discriminate.
Defined.

(** X9.  A bearer token that decodes but whose subject is absent, empty
    or zero is refused by [get_current_user] with the credentials
    exception, whatever [TokenData] would do with it; a token whose subject
    names no user of the table is refused with the 404 exception of
    [get_user].  In both cases the table is as before. *)
Theorem get_current_user_rejects_unusable_subject :
  forall (env : Env) (token_data : pyobj -> result pyobj) (tok : jwt.token) (w : World)
         (payload : gmap string jval),
    outcome (encoders.decode_token env tok) w = Ok payload ->
    (py_bool (payload_get payload "sub") = false ->
     outcome (dependencies.get_current_user env token_data tok) w
     = Raise InvalidCredentials)
    /\ (forall name,
          payload !! "sub" = Some (JStr name) ->
          name <> "" ->
          token_data (PyStr name) = Ok (PyStr name) ->
          List.find (fun u => String.eqb (username u) name) (user_table w) = None ->
          outcome (dependencies.get_current_user env token_data tok) w = Raise NotFound)
    /\ user_table (after (dependencies.get_current_user env token_data tok) w)
       = user_table w.
Proof.
  intros env token_data tok w payload Hdecode.
  unfold outcome, after. rewrite get_current_user_cases, Hdecode.
  split; [| split].
  - intros ->. reflexivity.
  - intros name Hsub Hname Htd Hfind.
    unfold payload_get. rewrite Hsub. cbn [py_bool].
    destruct (String.eqb_spec name ""); [contradiction |]. cbn [negb].
    rewrite Htd. destruct (get_user_missing _ _ Hfind) as [Hmissing _].
    unfold outcome in Hmissing. now rewrite Hmissing.
  - destruct (py_bool (payload_get payload "sub")); cbn [negb]; [| reflexivity].
    destruct (token_data (payload_get payload "sub")) as [key | e]; [| reflexivity].
    apply get_user_table.
Qed.

Lemma get_current_user_rejects_unusable_subject_witness :
  outcome (dependencies.get_current_user demo.env demo.token_data
             (encoders.encode_token demo.env {["sub" := JStr ""]} 900)) demo.world
  = Raise InvalidCredentials
  /\ outcome (dependencies.get_current_user demo.env demo.token_data
                demo.mallory_refresh) demo.world
     = Raise NotFound.
Proof.
  split.
  - destruct (get_current_user_rejects_unusable_subject demo.env demo.token_data
                (encoders.encode_token demo.env {["sub" := JStr ""]} 900) demo.world
                (<["exp" := JInt 1700000900]> {["sub" := JStr ""]}))
      as (Hempty & _ & _); [reflexivity |].
    apply Hempty. reflexivity.
  - destruct (get_current_user_rejects_unusable_subject demo.env demo.token_data
                demo.mallory_refresh demo.world
                (<["exp" := JInt 1700604800]> {["sub" := JStr "mallory"]}))
      as (_ & Hmissing & _); [reflexivity |].
    apply (Hmissing "mallory"); try reflexivity. discriminate.
Defined.

Lemma Depends_RoleChecker_cases (env : Env) (token_data : pyobj -> result pyobj)
      (allowed : list string) (tok : jwt.token) (w : World) :
  outcome (dependencies.Depends_RoleChecker env token_data
             (dependencies.mkRoleChecker allowed) tok) w
  = match outcome (dependencies.get_current_user env token_data tok) w with
    | Raise e => Raise e
    | Ok user =>
        if negb (is_active user)
        then Raise (HTTPException status.HTTP_400_BAD_REQUEST "Inactive user" [])
        else if dependencies.contains allowed (role_value (role user))
                || dependencies.contains allowed "*"
             then Ok user
             else Raise Forbidden
    end.
Proof.
  unfold dependencies.Depends_RoleChecker, dependencies.Depends_get_current_active_user.
  rewrite !outcome_bind.
  destruct (outcome (dependencies.get_current_user env token_data tok) w) as [user | e];
    [| reflexivity].
  unfold dependencies.get_current_active_user.
  destruct (is_active user); cbn [negb].
  - run. apply role_checker_cases.
  - run. reflexivity.
Qed.

Lemma keeps_table_bind {A B} (m : M A) (k : A -> M B) :
  keeps_table m -> (forall a, keeps_table (k a)) -> keeps_table (bind m k).
Proof.
  intros Hm Hk w. specialize (Hm w). unfold after, bind in *.
  destruct (m w) as [[a | e] w']; cbn [snd] in *; [| exact Hm].
  specialize (Hk a w'). unfold after in Hk. destruct Hk as [Ht Hs], Hm as [Ht' Hs'].
  split; congruence.
Qed.

Lemma keeps_table_ret {A} (a : A) : keeps_table (ret a).
Proof. intros w. split; reflexivity. Qed.

Lemma keeps_table_raise {A} (e : exn) : keeps_table (@raise A e).
Proof. intros w. split; reflexivity. Qed.

Lemma keeps_table_lift {A} (r : result A) : keeps_table (lift r).
Proof. intros w. split; reflexivity. Qed.

Lemma keeps_table_emit (e : event) : keeps_table (emit e).
Proof. intros w. split; reflexivity. Qed.

Lemma keeps_table_get_user (key : pyobj) : keeps_table (dependencies.get_user key).
Proof. intros w. apply get_user_table. Qed.

Lemma keeps_table_decode_token (env : Env) (tok : jwt.token) :
  keeps_table (encoders.decode_token env tok).
Proof. intros w. rewrite decode_token_world. split; reflexivity. Qed.

Ltac keeps :=
  repeat first
    [ apply keeps_table_get_user
    | apply keeps_table_decode_token
    | apply keeps_table_ret
    | apply keeps_table_raise
    | apply keeps_table_lift
    | apply keeps_table_emit
    | apply keeps_table_bind; [| intros ?]
    | match goal with |- keeps_table (if ?b then _ else _) => destruct b end
    | match goal with |- keeps_table (match ?x with _ => _ end) => destruct x end
    | progress cbv zeta
    | progress unfold logger_warning, logger_info ].

Lemma keeps_table_get_current_user (env : Env) (token_data : pyobj -> result pyobj)
      (tok : jwt.token) :
  keeps_table (dependencies.get_current_user env token_data tok).
Proof. unfold dependencies.get_current_user. keeps. Qed.

Lemma Depends_RoleChecker_table (env : Env) (token_data : pyobj -> result pyobj)
      (allowed : list string) (tok : jwt.token) (w : World) :
  user_table (after (dependencies.Depends_RoleChecker env token_data
                       (dependencies.mkRoleChecker allowed) tok) w)
  = user_table w.
Proof.
  apply (keeps_table_bind
           (dependencies.Depends_get_current_active_user env token_data tok)
           (dependencies.RoleChecker_call (dependencies.mkRoleChecker allowed))).
  - unfold dependencies.Depends_get_current_active_user.
    apply keeps_table_bind; [apply keeps_table_get_current_user |].
    intros user. unfold dependencies.get_current_active_user. keeps.
  - intros user. unfold dependencies.RoleChecker_call. keeps.
Qed.

(** X10.  The guard of a protected route, from bearer token to role
    check: the user it admits is a row of the table, is active and has
    one of the allowed roles (or the wildcard is allowed), and the token
    decoded.  An inactive user is refused with 400 "Inactive user" before
    the role is looked at, even where the role would be refused or the
    wildcard is allowed.  The guard never changes the table. *)
Theorem Depends_RoleChecker_admits_active_allowed :
  forall (env : Env) (token_data : pyobj -> result pyobj)
         (allowed : list string) (tok : jwt.token) (w : World),
    (forall user,
        outcome (dependencies.Depends_RoleChecker env token_data
                   (dependencies.mkRoleChecker allowed) tok) w = Ok user ->
        In user (user_table w)
        /\ is_active user = true
        /\ (In (role_value (role user)) allowed \/ In "*" allowed)
        /\ exists payload, outcome (encoders.decode_token env tok) w = Ok payload)
    /\ (forall user,
          outcome (dependencies.get_current_user env token_data tok) w = Ok user ->
          is_active user = false ->
          outcome (dependencies.Depends_RoleChecker env token_data
                     (dependencies.mkRoleChecker allowed) tok) w
          = Raise (HTTPException 400 "Inactive user" []))
    /\ user_table (after (dependencies.Depends_RoleChecker env token_data
                            (dependencies.mkRoleChecker allowed) tok) w)
       = user_table w.
Proof.
  intros env token_data allowed tok w. split; [| split].
  - intros user. rewrite Depends_RoleChecker_cases.
    destruct (outcome (dependencies.get_current_user env token_data tok) w)
      as [found | e] eqn:Eget; [| discriminate].
    destruct (is_active found) eqn:Eactive; cbn [negb]; [| discriminate].
    destruct (dependencies.contains allowed (role_value (role found))
              || dependencies.contains allowed "*") eqn:Eallowed; [| discriminate].
    intros H. injection H as <-.
    unfold outcome in Eget. rewrite get_current_user_cases in Eget.
    destruct (outcome (encoders.decode_token env tok) w) as [payload | e] eqn:Edecode;
      [| discriminate].
    destruct (py_bool (payload_get payload "sub")); cbn [negb] in Eget; [| discriminate].
    destruct (token_data (payload_get payload "sub")) as [key | e]; [| discriminate].
    split; [now apply get_user_ok_in with (key := key) |].
    split; [exact Eactive |].
    split; [| now exists payload].
    apply orb_true_iff in Eallowed as [H | H]; apply contains_In in H; tauto.
  - intros user Hget Hinactive. rewrite Depends_RoleChecker_cases, Hget, Hinactive.
    reflexivity.
  - apply Depends_RoleChecker_table.
Qed.

Lemma Depends_RoleChecker_admits_active_allowed_witness :
  outcome (dependencies.Depends_RoleChecker demo.env demo.token_data
             (dependencies.mkRoleChecker ["*"])
             (encoders.encode_token demo.env (auth.access_claims demo.bob) 900))
          demo.world
  = Raise (HTTPException 400 "Inactive user" []).
Proof.
  destruct (Depends_RoleChecker_admits_active_allowed demo.env demo.token_data ["*"]
              (encoders.encode_token demo.env (auth.access_claims demo.bob) 900)
              demo.world) as (_ & Hinactive & _).
  apply (Hinactive demo.bob); reflexivity.
Defined.

(* ===================================================================== *)
(** ** Further properties of registration *)
(* ===================================================================== *)

Lemma check_rules_run (rules : list ((string -> bool) * string)) (p : string) (w : World) :
  dependencies.check_rules rules p w = (Ok tt, w)
  \/ exists message,
       dependencies.check_rules rules p w
       = (Raise (policy.WeakPassword message),
          logged w [Log "WARNING" ("Password validation failed: " ++ message)]).
Proof.
  induction rules as [| [rule message] rules IH]; [now left |].
  cbn [dependencies.check_rules]. destruct (rule p); cbn [negb]; [exact IH |].
  right. now exists message.
Qed.

Lemma validate_password_strong (p : string) (w : World) :
  policy.strong p -> dependencies.validate_password p w = (Ok tt, w).
Proof.
  intros Hstrong.
  assert (Hok : outcome (dependencies.validate_password p) w = Ok tt).
  { unfold dependencies.validate_password.
    apply (check_rules_ok _ _ _ _ (validation_rules_agree p)).
    destruct Hstrong as (H1 & H2 & H3 & H4 & H5).
    unfold policy.rules. repeat constructor; assumption. }
  unfold dependencies.validate_password, outcome in *.
  destruct (check_rules_run dependencies.validation_rules p w) as [H | [message H]];
    rewrite H in *; [reflexivity | discriminate].
Qed.

Lemma validate_password_ok_strong (p : string) (w : World) :
  outcome (dependencies.validate_password p) w = Ok tt -> policy.strong p.
Proof.
  unfold dependencies.validate_password. intros Hok.
  apply (check_rules_ok _ _ _ _ (validation_rules_agree p)) in Hok.
  unfold policy.rules in Hok.
  repeat match goal with
         | HF : Forall _ (_ :: _) |- _ => inversion HF; subst; clear HF
         end.
  cbn [fst] in *. unfold policy.strong. tauto.
Qed.

Lemma validate_password_raise_weak (p : string) (w : World) (e : exn) :
  outcome (dependencies.validate_password p) w = Raise e -> ~ policy.strong p.
Proof.
  intros Hraise Hstrong. unfold outcome in Hraise.
  rewrite (validate_password_strong p w Hstrong) in Hraise. discriminate.
Qed.

Lemma validate_password_weak (p : string) (w : World) :
  ~ policy.strong p ->
  exists r,
    policy.first_violated policy.rules p r
    /\ dependencies.validate_password p w
       = (Raise (policy.WeakPassword (snd r)),
          logged w [Log "WARNING" ("Password validation failed: " ++ snd r)]).
Proof.
  intros Hweak. unfold dependencies.validate_password.
  destruct (check_rules_run dependencies.validation_rules p w) as [H | [message H]].
  - exfalso. apply Hweak. apply (validate_password_ok_strong p w).
    unfold dependencies.validate_password, outcome. now rewrite H.
  - assert (Hraise : outcome (dependencies.check_rules dependencies.validation_rules p) w
                     = Raise (policy.WeakPassword message))
      by (unfold outcome; now rewrite H).
    apply (check_rules_raise _ _ _ _ _ (validation_rules_agree p)) in Hraise
      as (r & Hfirst & Heq).
    exists r. split; [exact Hfirst |].
    injection Heq as ->. exact H.
Qed.

Lemma find_none_existsb (column : User -> string) (value : string) (tbl : list User)
      (extra : User -> bool) :
  List.find (fun u => String.eqb (column u) value) tbl = None ->
  existsb (fun r => extra r && String.eqb (column r) value) tbl = false.
Proof.
  intros Hnone. induction tbl as [| r tbl IH]; [reflexivity |].
  cbn [List.find existsb] in *.
  destruct (String.eqb (column r) value); [discriminate |].
  rewrite andb_false_r. cbn [orb]. now apply IH.
Qed.

Lemma find_app_new (name : string) (tbl : list User) (row : User) :
  List.find (fun u => String.eqb (username u) name) tbl = None ->
  username row = name ->
  List.find (fun u => String.eqb (username u) name) (tbl ++ [row]) = Some row.
Proof.
  intros Hnone Hrow. induction tbl as [| r tbl IH].
  - cbn. now rewrite Hrow, String.eqb_refl.
  - cbn [List.find app] in *.
    destruct (String.eqb (username r) name); [discriminate | now apply IH].
Qed.

Lemma create_user_run (env : Env) (user : UserCreate) (current_user : User) (w : World)
      (hashed : string) :
  List.find (fun u => String.eqb (username u) (uc_username user)) (user_table w) = None ->
  List.find (fun u => String.eqb (email u) (uc_email user)) (user_table w) = None ->
  policy.strong (uc_password user) ->
  passlib.hash (pwd_context env) (uc_password user) = Ok hashed ->
  fits (uc_username user) = true ->
  fits (uc_email user) = true ->
  fits_opt (uc_first_name user) = true ->
  fits_opt (uc_last_name user) = true ->
  auth.create_user env user current_user w
  = (Ok (new_user env user hashed (user_id_seq w)),
     mkWorld (user_table w ++ [new_user env user hashed (user_id_seq w)])
             (user_id_seq w + 1)
             (events w ++ [PwdHash (uc_password user); Log "INFO" "User created."])).
Proof.
  intros Hname Hemail Hstrong Hhash Hf1 Hf2 Hf3 Hf4.
  unfold auth.create_user, session_first, where_eq, User_username, User_email.
  unfold bind at 1. cbv beta iota. rewrite Hname.
  unfold bind at 1. cbv beta iota. rewrite Hemail.
  unfold bind at 1. rewrite (validate_password_strong _ _ Hstrong).
  unfold encoders.hash_password, session_insert, logger_info, emit, lift, bind, ret.
  cbv beta iota. rewrite Hhash. cbn [user_table user_id_seq events].
  assert (Haccept : table_accepts (user_table w) (new_user env user hashed (user_id_seq w))
                    = true).
  { unfold table_accepts, new_user.
    cbn [username email first_name last_name id].
    rewrite Hf1, Hf2, Hf3, Hf4. cbn [andb].
    now rewrite (find_none_existsb username _ _ _ Hname). }
  rewrite Haccept. cbn [user_table user_id_seq events].
  now rewrite <- app_assoc.
Qed.



(** X12.  Registration and login compose: after a successful
    registration, a login with the registered username and password
    succeeds as long as the password context verifies the password against
    the hash it produced, and it authenticates the row just created. *)
Theorem registered_user_can_log_in :
  forall (env env' : Env) (user : UserCreate) (current_user : User) (w : World)
         (hashed : string),
    List.find (fun u => String.eqb (username u) (uc_username user)) (user_table w) = None ->
    List.find (fun u => String.eqb (email u) (uc_email user)) (user_table w) = None ->
    policy.strong (uc_password user) ->
    passlib.hash (pwd_context env) (uc_password user) = Ok hashed ->
    fits (uc_username user) = true ->
    fits (uc_email user) = true ->
    fits_opt (uc_first_name user) = true ->
    fits_opt (uc_last_name user) = true ->
    passlib.verify (pwd_context env') (uc_password user) hashed = Ok true ->
    outcome (dependencies.authenticate_user env' (uc_username user) (uc_password user))
            (after (auth.create_user env user current_user) w)
    = outcome (auth.create_user env user current_user) w
    /\ exists pair,
         outcome (auth.login_for_access_token env' (uc_username user) (uc_password user))
                 (after (auth.create_user env user current_user) w)
         = Ok pair.
Proof.
  intros env env' user current_user w hashed
         Hname Hemail Hstrong Hhash Hf1 Hf2 Hf3 Hf4 Hverify.
  assert (Hauth : outcome (dependencies.authenticate_user env' (uc_username user)
                                                          (uc_password user))
                          (after (auth.create_user env user current_user) w)
                  = Ok (new_user env user hashed (user_id_seq w))).
  { apply authenticate_user_ok_iff. unfold after.
    rewrite (create_user_run _ _ _ _ _ Hname Hemail Hstrong Hhash Hf1 Hf2 Hf3 Hf4).
    cbn [snd user_table]. split; [now apply find_app_new |].
    split; [reflexivity | exact Hverify]. }
  split.
  - rewrite Hauth. unfold outcome.
    now rewrite (create_user_run _ _ _ _ _ Hname Hemail Hstrong Hhash Hf1 Hf2 Hf3 Hf4).
  - eexists. unfold auth.login_for_access_token. rewrite outcome_bind, Hauth.
    cbn [object_truth negb]. run. reflexivity.
Qed.

Lemma registered_user_can_log_in_witness :
  exists pair,
    outcome (auth.login_for_access_token demo.later "dave" "D4ve!pass")
            (after (auth.create_user demo.env demo.dave demo.alice) demo.world)
    = Ok pair.
Proof.
  apply (registered_user_can_log_in demo.env demo.later demo.dave demo.alice demo.world
           (demo.digest "D4ve!pass")); try reflexivity.
  apply (validate_password_ok_strong _ demo.world). reflexivity.
Defined.

(** X13.  A registration with a free username and email but a password
    the policy refuses raises 400 with the message of the first rule the
    password violates.  Nothing is written: the table and the sequence are
    as before, and the password context is not asked for a hash; the only
    trace is the warning in the log. *)
Theorem create_user_rejects_weak_password :
  forall (env : Env) (user : UserCreate) (current_user : User) (w : World),
    List.find (fun u => String.eqb (username u) (uc_username user)) (user_table w) = None ->
    List.find (fun u => String.eqb (email u) (uc_email user)) (user_table w) = None ->
    ~ policy.strong (uc_password user) ->
    exists r,
      policy.first_violated policy.rules (uc_password user) r
      /\ outcome (auth.create_user env user current_user) w
         = Raise (policy.WeakPassword (snd r))
      /\ user_table (after (auth.create_user env user current_user) w) = user_table w
      /\ user_id_seq (after (auth.create_user env user current_user) w) = user_id_seq w
      /\ events (after (auth.create_user env user current_user) w)
         = (events w ++ [Log "WARNING" ("Password validation failed: " ++ snd r)])%list.
Proof.
  intros env user current_user w Hname Hemail Hweak.
  destruct (validate_password_weak _ w Hweak) as (r & Hfirst & Hrun).
  exists r. split; [exact Hfirst |].
  assert (Hcreate : auth.create_user env user current_user w
                    = (Raise (policy.WeakPassword (snd r)),
                       logged w [Log "WARNING" ("Password validation failed: " ++ snd r)])).
  { unfold auth.create_user, session_first, where_eq, User_username, User_email.
    unfold bind at 1. cbv beta iota. rewrite Hname.
    unfold bind at 1. cbv beta iota. rewrite Hemail.
    unfold bind at 1. now rewrite Hrun. }
  unfold outcome, after. rewrite Hcreate. repeat split.
Qed.

Lemma create_user_rejects_weak_password_witness :
  exists r : (string -> Prop) * string,
    outcome (auth.create_user demo.env demo.dave_weak demo.alice) demo.world
    = Raise (policy.WeakPassword (snd r))
    /\ user_table (after (auth.create_user demo.env demo.dave_weak demo.alice) demo.world)
       = user_table demo.world.
Proof.
  destruct (create_user_rejects_weak_password demo.env demo.dave_weak demo.alice demo.world)
    as (r & _ & Hout & Htable & _); try reflexivity.
  - apply (validate_password_raise_weak _ demo.world
             (policy.WeakPassword "Password must contain at least one uppercase letter.")).
    reflexivity.
  - exists r. split; assumption.
Defined.

(* ===================================================================== *)
(** ** The table stays well formed *)
(* ===================================================================== *)

Lemma preserves_bind {A B} (P : World -> Prop) (m : M A) (k : A -> M B) :
  preserves P m -> (forall a, preserves P (k a)) -> preserves P (bind m k).
Proof.
  intros Hm Hk w Hw. specialize (Hm w Hw). unfold after, bind in *.
  destruct (m w) as [[a | e] w']; cbn [snd] in *; [| exact Hm].
  apply (Hk a w' Hm).
Qed.

Lemma keeps_table_preserves_ok {A} (m : M A) : keeps_table m -> preserves table_ok m.
Proof.
  intros Hm w Hw. destruct (Hm w) as [Ht Hs]. unfold table_ok in *.
  now rewrite Ht, Hs.
Qed.

Lemma keeps_table_session_first (query : result (User -> bool)) :
  keeps_table (session_first query).
Proof. intros w. unfold after, session_first. destruct query; split; reflexivity. Qed.

Lemma keeps_table_session_get (user_id : Z) : keeps_table (session_get user_id).
Proof. intros w. split; reflexivity. Qed.

Lemma keeps_table_get_user_by_id (user_id : Z) : keeps_table (users.get_user_by_id user_id).
Proof.
  unfold users.get_user_by_id.
  apply keeps_table_bind; [apply keeps_table_session_get |].
  intros [user |]; [apply keeps_table_ret | apply keeps_table_raise].
Qed.

Lemma keeps_table_verify_password (env : Env) (plain hashed : string) :
  keeps_table (encoders.verify_password env plain hashed).
Proof. unfold encoders.verify_password. keeps. Qed.

Lemma keeps_table_hash_password (env : Env) (password : string) :
  keeps_table (encoders.hash_password env password).
Proof. unfold encoders.hash_password. keeps. Qed.

Lemma keeps_table_validate_password (p : string) :
  keeps_table (dependencies.validate_password p).
Proof.
  intros w. unfold after.
  destruct (check_rules_run dependencies.validation_rules p w) as [H | [message H]];
    unfold dependencies.validate_password; rewrite H; split; reflexivity.
Qed.

Lemma map_id_replace_row (row user : User) (tbl : list User) :
  List.map id (replace_row row tbl) = List.map id tbl.
Proof.
  unfold replace_row. induction tbl as [| r tbl IH]; [reflexivity |].
  cbn [List.map]. rewrite IH. f_equal.
  destruct (Z.eqb_spec (id r) (id row)); congruence.
Qed.

Lemma replace_row_absent (row : User) (tbl : list User) :
  ~ In (id row) (List.map id tbl) -> replace_row row tbl = tbl.
Proof.
  unfold replace_row. induction tbl as [| r tbl IH]; [reflexivity |].
  cbn [List.map In]. intros Hnot.
  destruct (Z.eqb_spec (id r) (id row)); [tauto |]. f_equal. tauto.
Qed.

Lemma in_replace_row (row : User) (tbl : list User) (x : User) :
  In x (replace_row row tbl) ->
  (x = row /\ In (id row) (List.map id tbl)) \/ (In x tbl /\ id x <> id row).
Proof.
  unfold replace_row. induction tbl as [| r tbl IH]; [contradiction |].
  cbn [List.map In]. intros [H | H].
  - destruct (Z.eqb_spec (id r) (id row)); [left; split; [now symmetry | now left] | right].
    subst x. split; [now left | assumption].
  - destruct (IH H) as [[-> Hin] | [Hin Hne]];
      [left; split; [reflexivity | now right] | right; split; [now right | assumption]].
Qed.

Lemma replace_row_usernames (row : User) (tbl : list User) :
  List.NoDup (List.map id tbl) ->
  List.NoDup (List.map username tbl) ->
  (forall r, In r tbl -> id r <> id row -> username r <> username row) ->
  List.NoDup (List.map username (replace_row row tbl)).
Proof.
  induction tbl as [| r tbl IH]; [constructor |].
  cbn [List.map]. intros Hids Hnames Hother.
  apply List.NoDup_cons_iff in Hids as [Hid Hids].
  apply List.NoDup_cons_iff in Hnames as [Hname Hnames].
  change (replace_row row (r :: tbl))
    with ((if id r =? id row then row else r) :: replace_row row tbl).
  cbn [List.map]. apply List.NoDup_cons_iff.
  destruct (Z.eqb_spec (id r) (id row)) as [Heq | Hne].
  - rewrite replace_row_absent by (now rewrite <- Heq). split; [| assumption].
    intros Hin. apply in_map_iff in Hin as (x & Hx & Hinx).
    apply (Hother x); [now right | | assumption].
    intros Hidx. apply Hid. rewrite Heq, <- Hidx. now apply in_map.
  - split.
    + intros Hin. apply in_map_iff in Hin as (x & Hx & Hinx).
      apply in_replace_row in Hinx as [[-> _] | [Hinx _]].
      * apply (Hother r); [now left | assumption | now symmetry].
      * apply Hname. rewrite <- Hx. now apply in_map.
    + apply IH; try assumption. intros x Hx. apply Hother. now right.
Qed.

Lemma table_accepts_unique (tbl : list User) (row : User) :
  table_accepts tbl row = true ->
  forall r, In r tbl -> id r <> id row -> username r <> username row.
Proof.
  unfold table_accepts. intros Haccept r Hin Hid Hname.
  apply andb_true_iff in Haccept as [_ Hunique].
  apply negb_true_iff in Hunique.
  assert (Hex : existsb (fun r0 => negb (id r0 =? id row)
                                   && String.eqb (username r0) (username row)) tbl = true).
  { apply existsb_exists. exists r. split; [assumption |].
    rewrite Hname, String.eqb_refl, andb_true_r.
    apply negb_true_iff. now apply Z.eqb_neq. }
  congruence.
Qed.

Lemma preserves_ok_session_update (env : Env) (user : User) (d : UpdateData) :
  preserves table_ok (session_update env user d).
Proof.
  intros w (Hids & Hnames & Hseq). unfold after, session_update.
  destruct (sqlmodel_update env user d) as [row | e] eqn:Erow; [| now repeat split].
  destruct (table_accepts (user_table w) row) eqn:Eaccept; [| now repeat split].
  unfold table_ok. cbn [snd user_table user_id_seq]. split; [| split].
  - now rewrite (map_id_replace_row row user).
  - apply replace_row_usernames; try assumption. now apply table_accepts_unique.
  - apply List.Forall_forall. intros x Hx. rewrite List.Forall_forall in Hseq.
    apply in_replace_row in Hx as [[-> Hin] | [Hx _]]; [| now apply Hseq].
    apply in_map_iff in Hin as (y & Hy & Hiny). rewrite <- Hy. now apply Hseq.
Qed.

Lemma NoDup_app_singleton {A} (l : list A) (x : A) :
  List.NoDup l -> ~ In x l -> List.NoDup (l ++ [x]).
Proof.
  induction l as [| a l IH]; intros Hl Hx.
  - constructor; [intros [] | constructor].
  - apply List.NoDup_cons_iff in Hl as [Ha Hl]. cbn [app].
    apply List.NoDup_cons_iff. split.
    + intros Hin. apply in_app_or in Hin as [Hin | [Hin | []]]; [tauto |].
      apply Hx. now left.
    + apply IH; [assumption |]. intros Hin. apply Hx. now right.
Qed.

Lemma preserves_ok_insert (row_of_id : Z -> User) (w : World) :
  id (row_of_id (user_id_seq w)) = user_id_seq w ->
  table_ok w ->
  table_accepts (user_table w) (row_of_id (user_id_seq w)) = true ->
  table_ok (mkWorld (user_table w ++ [row_of_id (user_id_seq w)])
                    (user_id_seq w + 1) (events w)).
Proof.
  intros Hid (Hids & Hnames & Hseq) Haccept.
  set (row := row_of_id (user_id_seq w)) in *.
  assert (Hfresh : forall r, In r (user_table w) -> id r <> id row).
  { intros r Hr. rewrite List.Forall_forall in Hseq. specialize (Hseq r Hr). lia. }
  unfold table_ok. cbn [user_table user_id_seq]. rewrite !List.map_app. cbn [List.map].
  split; [| split].
  - apply NoDup_app_singleton; [assumption |].
    intros Hin. apply in_map_iff in Hin as (r & Hr & Hinr). now apply (Hfresh r).
  - apply NoDup_app_singleton; [assumption |].
    intros Hin. apply in_map_iff in Hin as (r & Hr & Hinr).
    apply (table_accepts_unique _ _ Haccept r Hinr); [now apply Hfresh | assumption].
  - apply List.Forall_app. split.
    + eapply List.Forall_impl; [| exact Hseq]. cbn. intros. lia.
    + constructor; [| constructor]. lia.
Qed.

Lemma table_ok_seq_succ (w : World) :
  table_ok w -> table_ok (mkWorld (user_table w) (user_id_seq w + 1) (events w)).
Proof.
  intros (Hids & Hnames & Hseq). repeat split; try assumption.
  cbn [user_table user_id_seq]. eapply List.Forall_impl; [| exact Hseq].
  cbn. intros. lia.
Qed.

Lemma preserves_ok_session_insert (env : Env) (user_data : UserCreate) (hashed : string) :
  preserves table_ok (session_insert env user_data hashed).
Proof.
  intros w Hw. unfold after, session_insert.
  destruct (table_accepts _ _) eqn:Eaccept; cbn [snd].
  - now apply (preserves_ok_insert (new_user env user_data hashed)).
  - destruct (row_fits _); [now apply table_ok_seq_succ | now destruct w].
Qed.

Lemma preserves_ok_session_add_commit (row_of_id : Z -> User) :
  (forall n, id (row_of_id n) = n) ->
  preserves table_ok (session_add_commit row_of_id).
Proof.
  intros Hid w Hw. unfold after, session_add_commit.
  destruct (table_accepts _ _) eqn:Eaccept; cbn [snd].
  - now apply preserves_ok_insert.
  - destruct (row_fits _); [now apply table_ok_seq_succ | now destruct w].
Qed.

Lemma NoDup_map_filter {A B} (f : A -> B) (p : A -> bool) (l : list A) :
  List.NoDup (List.map f l) -> List.NoDup (List.map f (List.filter p l)).
Proof.
  induction l as [| a l IH]; [constructor |].
  cbn [List.map List.filter]. intros Hl.
  apply List.NoDup_cons_iff in Hl as [Ha Hl].
  destruct (p a); [| now apply IH].
  cbn [List.map]. apply List.NoDup_cons_iff. split; [| now apply IH].
  intros Hin. apply Ha. apply in_map_iff in Hin as (x & Hx & Hinx).
  apply filter_In in Hinx as [Hinx _]. rewrite <- Hx. now apply in_map.
Qed.

Lemma preserves_ok_session_delete (user : User) :
  preserves table_ok (session_delete user).
Proof.
  intros w (Hids & Hnames & Hseq). unfold after, session_delete, table_ok.
  cbn [snd user_table user_id_seq].
  split; [now apply NoDup_map_filter | split; [now apply NoDup_map_filter |]].
  apply List.Forall_forall. intros x Hx. apply filter_In in Hx as [Hx _].
  rewrite List.Forall_forall in Hseq. now apply Hseq.
Qed.

Ltac preserving :=
  repeat first
    [ apply preserves_ok_session_update
    | apply preserves_ok_session_insert
    | apply preserves_ok_session_delete
    | apply keeps_table_preserves_ok;
      first [ apply keeps_table_session_first
            | apply keeps_table_get_user_by_id
            | apply keeps_table_verify_password
            | apply keeps_table_hash_password
            | apply keeps_table_validate_password
            | apply keeps_table_ret
            | apply keeps_table_raise
            | apply keeps_table_emit ]
    | apply preserves_bind; [| intros ?]
    | match goal with |- preserves _ (if ?b then _ else _) => destruct b end
    | match goal with |- preserves _ (match ?x with _ => _ end) => destruct x end
    | progress cbv zeta
    | progress unfold logger_warning, logger_info ].

(** X14.  The handlers that write keep the table well formed: starting
    from a table whose primary keys and usernames are unique and below the
    sequence, registration, update, deletion and the administrator script
    leave such a table, whether they succeed or raise. *)
Theorem writers_keep_table_well_formed :
  forall (env : Env) (current_user : User),
    (forall user, preserves table_ok (auth.create_user env user current_user))
    /\ (forall user_id b,
          preserves table_ok (users.update_user env user_id b current_user))
    /\ (forall user_id, preserves table_ok (users.delete_user user_id current_user))
    /\ (forall name mail password,
          preserves table_ok (create_admin.create_admin_user env name mail password)).
Proof.
  intros env current_user. split; [| split; [| split]].
  - intros user. unfold auth.create_user. preserving.
  - intros user_id b. unfold users.update_user. preserving.
  - intros user_id. unfold users.delete_user. preserving.
  - intros name mail password. unfold create_admin.create_admin_user. preserving.
    apply preserves_ok_session_add_commit. reflexivity.
Qed.

Lemma demo_world_ok : table_ok demo.world.
Proof.
  unfold table_ok, demo.world. cbn [user_table user_id_seq List.map].
  split; [| split].
  - repeat (apply List.NoDup_cons_iff; split; [cbn; intuition discriminate |]).
    constructor.
  - repeat (apply List.NoDup_cons_iff; split; [cbn; intuition discriminate |]).
    constructor.
  - repeat constructor.
Qed.

Lemma writers_keep_table_well_formed_witness :
  table_ok (after (auth.create_user demo.env demo.dave demo.alice) demo.world)
  /\ table_ok (after (users.update_user demo.env 3 demo.weak_change demo.alice) demo.world)
  /\ table_ok (after (users.delete_user 2 demo.alice) demo.world).
Proof.
  destruct (writers_keep_table_well_formed demo.env demo.alice) as (Hc & Hu & Hd & _).
  split; [| split].
  - apply Hc. exact demo_world_ok.
  - apply Hu. exact demo_world_ok.
  - apply Hd. exact demo_world_ok.
Defined.

(* ===================================================================== *)
(** ** Further properties of the update and of the deletion *)
(* ===================================================================== *)

Lemma bind_ok_inv {A B} (m : M A) (k : A -> M B) (w : World) (b : B) :
  outcome (bind m k) w = Ok b ->
  exists a,
    outcome m w = Ok a
    /\ outcome (k a) (after m w) = Ok b
    /\ after (bind m k) w = after (k a) (after m w).
Proof.
  unfold outcome, after, bind. destruct (m w) as [[a | e] w']; [| discriminate].
  intros H. now exists a.
Qed.

Lemma get_user_by_id_ok_inv (user_id : Z) (w : World) (user : User) :
  outcome (users.get_user_by_id user_id) w = Ok user ->
  List.find (fun u => id u =? user_id) (user_table w) = Some user
  /\ after (users.get_user_by_id user_id) w = w.
Proof.
  unfold outcome, after, users.get_user_by_id, session_get, bind. cbv beta.
  destruct (List.find _ (user_table w)) as [found |]; cbn; [| discriminate].
  intros H. injection H as <-. now split.
Qed.

Lemma session_update_ok_inv (env : Env) (user : User) (d : UpdateData) (w : World)
      (row : User) :
  outcome (session_update env user d) w = Ok row ->
  sqlmodel_update env user d = Ok row
  /\ table_accepts (user_table w) row = true
  /\ after (session_update env user d) w
     = mkWorld (replace_row row (user_table w)) (user_id_seq w) (events w).
Proof.
  unfold outcome, after, session_update.
  destruct (sqlmodel_update env user d) as [row0 | e]; [| discriminate].
  destruct (table_accepts (user_table w) row0) eqn:Eaccept; [| discriminate].
  cbn [fst snd]. intros H. injection H as <-. now repeat split.
Qed.

(** What a successful update did, whichever branch it took. *)
Lemma update_user_ok_inv (env : Env) (user_id : Z) (b : UserUpdate)
      (current_user : User) (w : World) (row : User) :
  outcome (users.update_user env user_id b current_user) w = Ok row ->
  exists user d,
    List.find (fun u => id u =? user_id) (user_table w) = Some user
    /\ body d = b
    /\ sqlmodel_update env user d = Ok row
    /\ table_accepts (user_table w) row = true
    /\ user_table (after (users.update_user env user_id b current_user) w)
       = replace_row row (user_table w)
    /\ user_id_seq (after (users.update_user env user_id b current_user) w)
       = user_id_seq w.
Proof.
  unfold users.update_user. cbv zeta. intros H.
  apply bind_ok_inv in H as (user & Hget & H & Hafter0).
  apply get_user_by_id_ok_inv in Hget as [Hfind Hw].
  rewrite Hafter0. rewrite Hw in *. clear Hafter0 Hw.
  apply bind_ok_inv in H as (d & Hstep & H & Hafter1).
  rewrite Hafter1. clear Hafter1.
  match type of Hstep with
  | outcome ?step w = Ok d =>
      assert (Hbody : body d = b /\ keeps_table step)
  end.
  { split.
    - destruct (dict_get (uu_old_password b)) as [old_password |];
        destruct (dict_get (uu_new_password b)) as [new_password |];
        try (injection Hstep as <-; reflexivity).
      destruct (truthy (Some old_password) && truthy (Some new_password));
        [| injection Hstep as <-; reflexivity].
      apply bind_ok_inv in Hstep as ([|] & _ & Hstep & _); [| discriminate].
      apply bind_ok_inv in Hstep as (hashed & _ & Hstep & _).
      injection Hstep as <-. reflexivity.
    - destruct (dict_get (uu_old_password b)) as [old_password |];
        destruct (dict_get (uu_new_password b)) as [new_password |];
        try apply keeps_table_ret.
      destruct (truthy (Some old_password) && truthy (Some new_password));
        [| apply keeps_table_ret].
      apply keeps_table_bind; [apply keeps_table_verify_password |].
      intros [|]; [| apply keeps_table_raise].
      apply keeps_table_bind; [apply keeps_table_hash_password |].
      intros hashed. apply keeps_table_ret. }
  destruct Hbody as [Hbody Hkeeps].
  destruct (Hkeeps w) as [Htable Hseq].
  apply bind_ok_inv in H as (row0 & Hupdate & H & Hafter2).
  rewrite Hafter2. clear Hafter2.
  apply session_update_ok_inv in Hupdate as (Hrow & Haccept & Hafter3).
  rewrite Hafter3 in *. clear Hafter3.
  revert H. run. intros H. injection H as <-.
  rewrite Htable in Haccept.
  exists user, d. rewrite Htable, Hseq. repeat split; assumption.
Qed.

(** X15.  A PATCH that names both passwords with an old password the
    context does not verify is refused with the credentials exception, and
    refused whole: whatever other fields the body supplies, no row changes,
    and the new password is never hashed. *)
Theorem update_user_wrong_old_password_changes_nothing :
  forall (env : Env) (user_id : Z) (b : UserUpdate) (current_user : User) (w : World)
         (user : User) (old_password new_password : string),
    List.find (fun u => id u =? user_id) (user_table w) = Some user ->
    uu_old_password b = Val old_password ->
    uu_new_password b = Val new_password ->
    old_password <> "" ->
    new_password <> "" ->
    passlib.verify (pwd_context env) old_password (hashed_password user) = Ok false ->
    outcome (users.update_user env user_id b current_user) w = Raise InvalidCredentials
    /\ user_table (after (users.update_user env user_id b current_user) w) = user_table w
    /\ user_id_seq (after (users.update_user env user_id b current_user) w) = user_id_seq w
    /\ events (after (users.update_user env user_id b current_user) w)
       = (events w ++ [PwdVerify old_password (hashed_password user)])%list.
Proof.
  intros env user_id b current_user w user old_password new_password
         Hfind Hold Hnew Hold_ne Hnew_ne Hverify.
  assert (Htruthy : forall s, s <> "" -> truthy (Some s) = true).
  { intros s Hs. cbn. destruct (String.eqb_spec s ""); [contradiction | reflexivity]. }
  assert (Hrun : users.update_user env user_id b current_user w
                 = (Raise InvalidCredentials,
                    logged w [PwdVerify old_password (hashed_password user)])).
  { unfold users.update_user, users.get_user_by_id, session_get.
    unfold bind at 1. unfold bind at 1. cbv beta. rewrite Hfind. cbv beta iota.
    unfold ret at 1. cbv beta iota.
    rewrite Hold, Hnew. cbn [dict_get].
    rewrite (Htruthy _ Hold_ne), (Htruthy _ Hnew_ne). cbn [andb].
    unfold encoders.verify_password, emit, lift, bind. cbv beta iota.
    rewrite Hverify. reflexivity. }
  unfold outcome, after. rewrite Hrun. repeat split.
Qed.

Lemma update_user_wrong_old_password_changes_nothing_witness :
  outcome (users.update_user demo.env 3
             (mkUserUpdate (Val "carola") Unset Unset Unset
                           (Val "not carol's") (Val "N3w!pass") Unset (Val "Administrateur"))
             demo.alice) demo.world
  = Raise InvalidCredentials
  /\ user_table (after (users.update_user demo.env 3
                          (mkUserUpdate (Val "carola") Unset Unset Unset
                                        (Val "not carol's") (Val "N3w!pass") Unset
                                        (Val "Administrateur"))
                          demo.alice) demo.world)
     = user_table demo.world.
Proof.
  destruct (update_user_wrong_old_password_changes_nothing demo.env 3
              (mkUserUpdate (Val "carola") Unset Unset Unset
                            (Val "not carol's") (Val "N3w!pass") Unset (Val "Administrateur"))
              demo.alice demo.world demo.carol "not carol's" "N3w!pass")
    as (Hout & Htable & _); try reflexivity; try discriminate.
  split; assumption.
Defined.

(** X16.  An old or a new password sent as the empty string or as [null]
    counts as not sent: the update runs as the same body without its
    password fields, the password context is not called, and a successful
    update leaves the stored hash as it was.  In particular a correct old
    password with an empty new one changes nothing and raises nothing. *)
Theorem update_user_empty_password_is_skipped :
  forall (env : Env) (user_id : Z) (b : UserUpdate) (current_user : User) (w : World),
    uu_old_password b = Val "" \/ uu_old_password b = Null
    \/ uu_new_password b = Val "" \/ uu_new_password b = Null ->
    users.update_user env user_id b current_user w
    = users.update_user env user_id (patch.without_passwords b) current_user w
    /\ (forall row,
          outcome (users.update_user env user_id b current_user) w = Ok row ->
          exists user,
            List.find (fun u => id u =? user_id) (user_table w) = Some user
            /\ hashed_password row = hashed_password user)
    /\ (forall secret hash,
          (In (PwdVerify secret hash)
              (events (after (users.update_user env user_id b current_user) w))
           -> In (PwdVerify secret hash) (events w))
          /\ (In (PwdHash secret)
                 (events (after (users.update_user env user_id b current_user) w))
              -> In (PwdHash secret) (events w))).
Proof.
  intros env user_id b current_user w Hempty.
  assert (Hskip : truthy (dict_get (uu_old_password b))
                  && truthy (dict_get (uu_new_password b)) = false).
  { destruct Hempty as [-> | [-> | [-> | ->]]];
      try reflexivity; apply andb_false_r. }
  split; [| split].
  - rewrite (update_user_no_password _ _ _ _ _ Hskip).
    rewrite (update_user_no_password _ _ (patch.without_passwords b)) by reflexivity.
    reflexivity.
  - intros row Hok. destruct (update_user_ok_inv _ _ _ _ _ _ Hok)
      as (user & d & Hfind & _ & _ & _).
    exists user. split; [exact Hfind |].
    unfold outcome in Hok. rewrite (update_user_no_password _ _ _ _ _ Hskip) in Hok.
    change (outcome (user0 <- users.get_user_by_id user_id;;
                     user1 <- session_update env user0 (mkUpdateData b None);;
                     logger_info ("Updated user with ID " ++ pretty user_id ++ ".");;
                     ret user1) w = Ok row) in Hok.
    apply bind_ok_inv in Hok as (user' & Hget & Hok & _).
    apply get_user_by_id_ok_inv in Hget as [Hfind' Hw]. rewrite Hw in Hok.
    assert (user' = user) by congruence. subst user'.
    apply bind_ok_inv in Hok as (row0 & Hupdate & Hok & _).
    apply session_update_ok_inv in Hupdate as (Hrow & _ & Hafter). rewrite Hafter in Hok.
    revert Hok. run. intros Hok. injection Hok as <-.
    now apply sqlmodel_update_inv in Hrow as (_ & Hhash & _).
  - intros secret hash.
    destruct (update_user_no_password_events env user_id b current_user w Hskip)
      as [-> | ->]; split; try tauto;
      intros Hin; apply in_app_or in Hin as [Hin | [Hin | []]];
      (assumption || discriminate).
Qed.

Lemma update_user_empty_password_is_skipped_witness :
  exists row,
    outcome (users.update_user demo.env 3
               (mkUserUpdate Unset Unset Unset Unset (Val "C4rol?pass") (Val "")
                             Unset Unset)
               demo.alice) demo.world = Ok row
    /\ hashed_password row = hashed_password demo.carol.
Proof.
  destruct (update_user_empty_password_is_skipped demo.env 3
              (mkUserUpdate Unset Unset Unset Unset (Val "C4rol?pass") (Val "")
                            Unset Unset)
              demo.alice demo.world) as (_ & Hhash & _).
  - right. right. left. reflexivity.
  - eexists. split; [reflexivity |].
    destruct (Hhash _ eq_refl) as (user & Hfind & Hsame).
    injection Hfind as <-. exact Hsame.
Defined.

Lemma in_replace_row_other (row : User) (tbl : list User) (x : User) :
  id x <> id row -> (In x (replace_row row tbl) <-> In x tbl).
Proof.
  intros Hne. split.
  - intros Hin. apply in_replace_row in Hin as [[-> _] | [Hin _]]; [contradiction | assumption].
  - unfold replace_row. induction tbl as [| r tbl IH]; [contradiction |].
    cbn [List.map In]. intros [-> | Hin].
    + left. destruct (Z.eqb_spec (id x) (id row)); [contradiction | reflexivity].
    + right. now apply IH.
Qed.

(** X17.  A successful update rewrites the row of the requested primary
    key and nothing else: the row it returns keeps its primary key and its
    creation time, the rows of the other primary keys are exactly those of
    before, the table holds as many rows and the same primary keys as
    before, and the sequence does not move. *)
Theorem update_user_changes_only_target_row :
  forall (env : Env) (user_id : Z) (b : UserUpdate) (current_user : User) (w : World)
         (row : User),
    outcome (users.update_user env user_id b current_user) w = Ok row ->
    id row = user_id
    /\ (exists user,
           List.find (fun u => id u =? user_id) (user_table w) = Some user
           /\ created_at row = created_at user)
    /\ (List.length (user_table (after (users.update_user env user_id b current_user) w))
        = List.length (user_table w)
        /\ forall n,
             In n (List.map id
                     (user_table (after (users.update_user env user_id b current_user) w)))
             <-> In n (List.map id (user_table w)))
    /\ (forall r,
          id r <> user_id ->
          In r (user_table (after (users.update_user env user_id b current_user) w))
          <-> In r (user_table w))
    /\ List.find (fun u => id u =? user_id)
                 (user_table (after (users.update_user env user_id b current_user) w))
       = Some row
    /\ user_id_seq (after (users.update_user env user_id b current_user) w)
       = user_id_seq w.
Proof.
  intros env user_id b current_user w row Hok.
  destruct (update_user_ok_inv _ _ _ _ _ _ Hok)
    as (user & d & Hfind & _ & Hrow & _ & Htable & Hseq).
  apply sqlmodel_update_inv in Hrow as (Hid & _ & _ & _ & _ & _ & _ & _ & Hcreated).
  assert (Huser : id user = user_id).
  { apply find_some in Hfind as [_ H]. now apply Z.eqb_eq in H. }
  rewrite Htable, Hseq.
  split; [congruence | split; [now exists user | split; [| split; [| split]]]].
  - split.
    + unfold replace_row. apply List.length_map.
    + intros n. now rewrite (map_id_replace_row row user).
  - intros r Hne. apply in_replace_row_other. congruence.
  - rewrite <- Huser, <- Hid in *. now apply find_replace_row with (user := user).
  - reflexivity.
Qed.

Lemma update_user_changes_only_target_row_witness :
  In demo.alice
     (user_table (after (users.update_user demo.env 3 demo.lone_new_password demo.alice)
                        demo.world))
  /\ In demo.bob
        (user_table (after (users.update_user demo.env 3 demo.lone_new_password demo.alice)
                           demo.world)).
Proof.
  destruct (update_user_changes_only_target_row demo.env 3 demo.lone_new_password
              demo.alice demo.world
              (mkUser 3 "carol" "carol@example.org" (Some "Carol") None
                      (demo.digest "C4rol?pass") USER true 1690000300 1700000000))
    as (_ & _ & _ & Hothers & _); [reflexivity |].
  split.
  - apply Hothers; [discriminate | cbn; tauto].
  - apply Hothers; [discriminate | cbn; tauto].
Defined.

(** X18.  Unlike registration, an update does not keep emails unique: a
    PATCH that sets a user's email to the email of another user is
    accepted by the handler and by the table, which then holds two rows
    with that email. *)
Theorem update_user_accepts_duplicate_email :
  forall (env : Env) (user_id : Z) (current_user : User) (w : World) (user other : User),
    List.find (fun u => id u =? user_id) (user_table w) = Some user ->
    In other (user_table w) ->
    id other <> user_id ->
    table_accepts (user_table w)
      (mkUser (id user) (username user) (email other) (first_name user) (last_name user)
              (hashed_password user) (role user) (is_active user) (created_at user)
              (now env)) = true ->
    exists row,
      outcome (users.update_user env user_id
                 (mkUserUpdate Unset (Val (email other)) Unset Unset Unset Unset Unset Unset)
                 current_user) w = Ok row
      /\ id row = user_id
      /\ email row = email other
      /\ In row (user_table (after (users.update_user env user_id
                                      (mkUserUpdate Unset (Val (email other)) Unset Unset
                                                    Unset Unset Unset Unset)
                                      current_user) w))
      /\ In other (user_table (after (users.update_user env user_id
                                        (mkUserUpdate Unset (Val (email other)) Unset Unset
                                                      Unset Unset Unset Unset)
                                        current_user) w)).
Proof.
  intros env user_id current_user w user other Hfind Hother Hne Haccept.
  set (b := mkUserUpdate Unset (Val (email other)) Unset Unset Unset Unset Unset Unset).
  set (row := mkUser (id user) (username user) (email other) (first_name user)
                     (last_name user) (hashed_password user) (role user) (is_active user)
                     (created_at user) (now env)) in *.
  assert (Huser : id user = user_id).
  { apply find_some in Hfind as [_ H]. now apply Z.eqb_eq in H. }
  assert (Hok : outcome (users.update_user env user_id b current_user) w = Ok row).
  { unfold outcome. rewrite update_user_no_password by reflexivity.
    unfold users.get_user_by_id, session_get, session_update. unfold bind, ret. cbv beta.
    rewrite Hfind. cbv beta iota.
    change (sqlmodel_update env user (mkUpdateData b None)) with (Ok row).
    cbv beta iota. rewrite Haccept. reflexivity. }
  exists row. split; [exact Hok |].
  destruct (update_user_ok_inv _ _ _ _ _ _ Hok) as (_ & _ & _ & _ & _ & _ & Htable & _).
  rewrite Htable.
  split; [exact Huser | split; [reflexivity | split]].
  - assert (Hf : List.find (fun u => id u =? id row) (replace_row row (user_table w))
                 = Some row).
    { apply find_replace_row with (user := user). cbn [row id]. now rewrite Huser. }
    now apply find_some in Hf.
  - apply in_replace_row_other; [cbn [row id]; congruence | assumption].
Qed.

Lemma update_user_accepts_duplicate_email_witness :
  exists row,
    outcome (users.update_user demo.env 3
               (mkUserUpdate Unset (Val "alice@example.org") Unset Unset Unset Unset
                             Unset Unset)
               demo.alice) demo.world = Ok row
    /\ email row = email demo.alice
    /\ id row <> id demo.alice.
Proof.
  destruct (update_user_accepts_duplicate_email demo.env 3 demo.alice demo.world
              demo.carol demo.alice)
    as (row & Hout & Hid & Hemail & _); try reflexivity.
  - cbn. tauto.
  - discriminate.
  - exists row. split; [exact Hout | split; [exact Hemail |]].
    rewrite Hid. discriminate.
Defined.

Lemma find_filter_out (user_id : Z) (tbl : list User) :
  List.find (fun u => id u =? user_id)
            (List.filter (fun r => negb (id r =? user_id)) tbl) = None.
Proof.
  induction tbl as [| r tbl IH]; [reflexivity |].
  cbn [List.filter]. destruct (id r =? user_id) eqn:E; cbn [negb]; [exact IH |].
  cbn [List.find]. now rewrite E.
Qed.

Lemma delete_user_run (user_id : Z) (current_user : User) (w : World) (user : User) :
  List.find (fun u => id u =? user_id) (user_table w) = Some user ->
  users.delete_user user_id current_user w
  = (Ok tt,
     mkWorld (List.filter (fun r => negb (id r =? user_id)) (user_table w))
             (user_id_seq w) (events w ++ [Log "INFO" "User Deleted."])).
Proof.
  intros Hfind.
  assert (Huser : id user = user_id).
  { apply find_some in Hfind as [_ H]. now apply Z.eqb_eq in H. }
  unfold users.delete_user, users.get_user_by_id, session_get, session_delete,
    logger_info, emit.
  unfold bind, ret. cbv beta. rewrite Hfind. cbv beta iota.
  cbn [user_table user_id_seq events]. now rewrite Huser.
Qed.

(** X19.  Deleting an existing user removes the row of that primary key
    and no other: afterwards the primary key is unknown (a lookup, and so a
    second deletion, raises 404), the rows of the other primary keys are
    exactly those of before, and the sequence does not move.  Deleting an
    unknown primary key raises 404 and leaves the state as it was. *)
Theorem delete_user_removes_only_that_row :
  forall (user_id : Z) (current_user : User) (w : World),
    (forall user,
        List.find (fun u => id u =? user_id) (user_table w) = Some user ->
        outcome (users.delete_user user_id current_user) w = Ok tt
        /\ outcome (users.get_user_by_id user_id)
                   (after (users.delete_user user_id current_user) w)
           = Raise (HTTPException 404 "User not found." [])
        /\ outcome (users.delete_user user_id current_user)
                   (after (users.delete_user user_id current_user) w)
           = Raise (HTTPException 404 "User not found." [])
        /\ (forall r,
              id r <> user_id ->
              In r (user_table (after (users.delete_user user_id current_user) w))
              <-> In r (user_table w))
        /\ ~ In user (user_table (after (users.delete_user user_id current_user) w))
        /\ user_id_seq (after (users.delete_user user_id current_user) w)
           = user_id_seq w)
    /\ (List.find (fun u => id u =? user_id) (user_table w) = None ->
        outcome (users.delete_user user_id current_user) w
        = Raise (HTTPException 404 "User not found." [])
        /\ after (users.delete_user user_id current_user) w = w).
Proof.
  intros user_id current_user w. split.
  - intros user Hfind. unfold outcome, after.
    rewrite (delete_user_run _ _ _ _ Hfind). cbn [fst snd user_table user_id_seq].
    assert (Hgone : forall ev,
               List.find (fun u => id u =? user_id)
                 (user_table
                    (mkWorld (List.filter (fun r => negb (id r =? user_id)) (user_table w))
                             (user_id_seq w) ev)) = None)
      by (intros ev; apply find_filter_out).
    split; [reflexivity | split; [| split; [| split; [| split]]]].
    + unfold users.get_user_by_id, session_get, bind. cbv beta.
      now rewrite Hgone.
    + unfold users.delete_user, users.get_user_by_id, session_get, bind. cbv beta.
      now rewrite Hgone.
    + intros r Hne. rewrite filter_In. split; [tauto |].
      intros Hin. split; [assumption |].
      apply negb_true_iff. now apply Z.eqb_neq.
    + rewrite filter_In. intros [_ Hkeep].
      apply find_some in Hfind as [_ H]. rewrite H in Hkeep. discriminate.
    + reflexivity.
  - intros Hnone. unfold outcome, after, users.delete_user, users.get_user_by_id,
      session_get, bind. cbv beta.
    rewrite Hnone. split; reflexivity.
Qed.

Lemma delete_user_removes_only_that_row_witness :
  outcome (users.delete_user 2 demo.alice) demo.world = Ok tt
  /\ outcome (users.get_user_by_id 2) (after (users.delete_user 2 demo.alice) demo.world)
     = Raise (HTTPException 404 "User not found." [])
  /\ outcome (users.delete_user 9 demo.alice) demo.world
     = Raise (HTTPException 404 "User not found." []).
Proof.
  destruct (delete_user_removes_only_that_row 2 demo.alice demo.world) as [Hknown _].
  destruct (Hknown demo.bob eq_refl) as (Hout & Hlookup & _).
  destruct (delete_user_removes_only_that_row 9 demo.alice demo.world) as [_ Hunknown].
  destruct (Hunknown eq_refl) as [Hmissing _].
  split; [exact Hout | split; [exact Hlookup | exact Hmissing]].
Defined.

Lemma NoDup_map_injective {A B} (f : A -> B) (l : list A) (x y : A) :
  List.NoDup (List.map f l) -> In x l -> In y l -> f x = f y -> x = y.
Proof.
  induction l as [| a l IH]; [contradiction |].
  cbn [List.map]. intros Hl Hx Hy Hf.
  apply List.NoDup_cons_iff in Hl as [Ha Hl].
  destruct Hx as [-> | Hx], Hy as [-> | Hy]; try reflexivity.
  - exfalso. apply Ha. rewrite Hf. now apply in_map.
  - exfalso. apply Ha. rewrite <- Hf. now apply in_map.
  - now apply IH.
Qed.

Lemma find_unique_username (tbl : list User) (row : User) :
  List.NoDup (List.map username tbl) ->
  In row tbl ->
  List.find (fun u => String.eqb (username u) (username row)) tbl = Some row.
Proof.
  intros Hnames Hin.
  destruct (List.find (fun u => String.eqb (username u) (username row)) tbl)
    as [found |] eqn:Efind.
  - apply find_some in Efind as [Hfound Heq]. apply String.eqb_eq in Heq.
    f_equal. now apply (NoDup_map_injective username tbl).
  - exfalso. apply (find_none _ _ Efind) in Hin. now rewrite String.eqb_refl in Hin.
Qed.

Lemma find_username_deleted (tbl : list User) (user : User) :
  List.NoDup (List.map username tbl) ->
  In user tbl ->
  List.find (fun u => String.eqb (username u) (username user))
            (List.filter (fun r => negb (id r =? id user)) tbl) = None.
Proof.
  intros Hnames Hin.
  destruct (List.find _ (List.filter _ tbl)) as [found |] eqn:Efind; [| reflexivity].
  exfalso. apply find_some in Efind as [Hfound Heq]. apply String.eqb_eq in Heq.
  apply filter_In in Hfound as [Hfound Hkeep].
  assert (found = user) by now apply (NoDup_map_injective username tbl).
  subst found. now rewrite Z.eqb_refl in Hkeep.
Qed.

Lemma decode_token_any_world (env : Env) (tok : jwt.token) (w w' : World) :
  outcome (encoders.decode_token env tok) w = outcome (encoders.decode_token env tok) w'.
Proof.
  unfold outcome, encoders.decode_token.
  destruct (jwt.decode _ _ _ _ _) as [[] | payload]; reflexivity.
Qed.

(** X20.  Once a user is deleted, in a table with unique usernames, the
    username is unknown at once: a login raises 404 whatever the password,
    and a token still valid for that username is refused with 404 both as
    a bearer token and at the refresh endpoint. *)
Theorem deleted_user_is_unknown_at_once :
  forall (env : Env) (user_id : Z) (current_user : User) (w : World) (user : User),
    table_ok w ->
    List.find (fun u => id u =? user_id) (user_table w) = Some user ->
    (forall password,
        outcome (dependencies.authenticate_user env (username user) password)
                (after (users.delete_user user_id current_user) w)
        = Raise NotFound)
    /\ (forall tok payload,
          outcome (encoders.decode_token env tok) w = Ok payload ->
          payload !! "sub" = Some (JStr (username user)) ->
          outcome (auth.refresh_token env (auth_schemas.mkRefreshToken tok))
                  (after (users.delete_user user_id current_user) w)
          = Raise NotFound
          /\ (forall token_data,
                username user <> "" ->
                token_data (PyStr (username user)) = Ok (PyStr (username user)) ->
                outcome (dependencies.get_current_user env token_data tok)
                        (after (users.delete_user user_id current_user) w)
                = Raise NotFound)).
Proof.
  intros env user_id current_user w user (_ & Hnames & _) Hfind.
  assert (Huser : id user = user_id /\ In user (user_table w)).
  { apply find_some in Hfind as [Hin H]. apply Z.eqb_eq in H. now split. }
  destruct Huser as [Huser Hin].
  assert (Hgone : List.find (fun u => String.eqb (username u) (username user))
                    (user_table (after (users.delete_user user_id current_user) w))
                  = None).
  { unfold after. rewrite (delete_user_run _ _ _ _ Hfind). cbn [snd user_table].
    rewrite <- Huser. now apply find_username_deleted. }
  split.
  - intros password. unfold outcome. rewrite authenticate_user_cases, Hgone. reflexivity.
  - intros tok payload Hdecode Hsub.
    rewrite (decode_token_any_world env tok w
               (after (users.delete_user user_id current_user) w)) in Hdecode.
    split.
    + rewrite refresh_token_cases, Hdecode. unfold payload_get. rewrite Hsub.
      now destruct (get_user_missing _ _ Hgone) as [-> _].
    + intros token_data Hname Htd. unfold outcome.
      rewrite get_current_user_cases, Hdecode. unfold payload_get. rewrite Hsub.
      cbn [py_bool]. destruct (String.eqb_spec (username user) ""); [contradiction |].
      cbn [negb]. rewrite Htd.
      destruct (get_user_missing _ _ Hgone) as [Hmissing _].
      unfold outcome in Hmissing. now rewrite Hmissing.
Qed.

Lemma deleted_user_is_unknown_at_once_witness :
  outcome (dependencies.authenticate_user demo.env "alice" "Str0ng!Pw")
          (after (users.delete_user 1 demo.alice) demo.world)
  = Raise NotFound
  /\ outcome (dependencies.get_current_user demo.env demo.token_data
                (auth_schemas.access_token demo.alice_login))
             (after (users.delete_user 1 demo.alice) demo.world)
     = Raise NotFound.
Proof.
  destruct (deleted_user_is_unknown_at_once demo.env 1 demo.alice demo.world demo.alice
              demo_world_ok eq_refl) as [Hlogin Htoken].
  split; [apply Hlogin |].
  destruct (Htoken (auth_schemas.access_token demo.alice_login)
                   (<["exp" := JInt 1700000900]> (auth.access_claims demo.alice)))
    as [_ Hbearer]; [reflexivity | reflexivity |].
  apply Hbearer; [discriminate | reflexivity].
Defined.

(** X21.  Deactivation takes effect at once: after a successful update
    that leaves the row inactive, in a table with unique primary keys and
    usernames, a login under that row's username raises 423 whatever the
    password, and the guard of the authenticated routes refuses the row
    with 400. *)
Theorem deactivated_user_is_locked_out :
  forall (env env' : Env) (user_id : Z) (b : UserUpdate) (current_user : User)
         (w : World) (row : User),
    table_ok w ->
    outcome (users.update_user env user_id b current_user) w = Ok row ->
    is_active row = false ->
    (forall password,
        outcome (dependencies.authenticate_user env' (username row) password)
                (after (users.update_user env user_id b current_user) w)
        = Raise Locked)
    /\ outcome (dependencies.get_current_active_user row)
               (after (users.update_user env user_id b current_user) w)
       = Raise (HTTPException 400 "Inactive user" []).
Proof.
  intros env env' user_id b current_user w row (Hids & Hnames & _) Hok Hinactive.
  destruct (update_user_ok_inv _ _ _ _ _ _ Hok)
    as (user & d & Hfind & _ & Hrow & Haccept & Htable & _).
  apply sqlmodel_update_inv in Hrow as (Hid & _).
  assert (Hfound : List.find (fun u => String.eqb (username u) (username row))
                     (user_table (after (users.update_user env user_id b current_user) w))
                   = Some row).
  { rewrite Htable. apply find_unique_username.
    - apply replace_row_usernames; try assumption. now apply table_accepts_unique.
    - assert (Hf : List.find (fun u => id u =? id row) (replace_row row (user_table w))
                   = Some row).
      { apply find_replace_row with (user := user).
        pose proof (find_some _ _ Hfind) as [_ H]. apply Z.eqb_eq in H.
        rewrite Hid, H. exact Hfind. }
      now apply find_some in Hf. }
  split.
  - intros password. unfold outcome.
    rewrite authenticate_user_cases, Hfound, Hinactive. reflexivity.
  - unfold dependencies.get_current_active_user. rewrite Hinactive. cbn [negb].
    run. reflexivity.
Qed.

Lemma deactivated_user_is_locked_out_witness :
  outcome (dependencies.authenticate_user demo.later "bob" "B0b#secret")
          (after (users.update_user demo.env 2
                    (mkUserUpdate Unset Unset Unset Unset Unset Unset (Val false) Unset)
                    demo.alice) demo.world_before_lock)
  = Raise Locked.
Proof.
  assert (Hok : table_ok demo.world_before_lock).
  { unfold table_ok, demo.world_before_lock. cbn [user_table user_id_seq List.map].
    split; [| split].
    - repeat (apply List.NoDup_cons_iff; split; [cbn; intuition discriminate |]).
      constructor.
    - repeat (apply List.NoDup_cons_iff; split; [cbn; intuition discriminate |]).
      constructor.
    - repeat constructor. }
  destruct (deactivated_user_is_locked_out demo.env demo.later 2
              (mkUserUpdate Unset Unset Unset Unset Unset Unset (Val false) Unset)
              demo.alice demo.world_before_lock
              (mkUser 2 "bob" "bob@example.org" None None
                      (demo.digest "B0b#secret") USER false 1690000100 1700000000)
              Hok)
    as [Hlogin _]; [reflexivity | reflexivity |].
  apply (Hlogin "B0b#secret").
Defined.

(* ===================================================================== *)
(** ** The administrator script *)
(* ===================================================================== *)

Lemma create_admin_user_existing (env : Env) (name mail password : string) (w : World)
      (existing : User) :
  List.find (fun u => String.eqb (username u) name) (user_table w) = Some existing ->
  create_admin.create_admin_user env name mail password w
  = (Ok ("Admin user '" ++ name ++ "' already exists."), w).
Proof.
  intros Hfind.
  unfold create_admin.create_admin_user, session_first, where_eq, User_username, bind.
  cbv beta iota. now rewrite Hfind.
Qed.




(** X23.  The administrator script is idempotent on the table: when a run
    completes, a second run with the same arguments finds the username,
    reports that the user exists and changes nothing.  When the username
    was already taken the first run is such a run, whatever the role of
    the user who holds it: nobody is promoted. *)
Theorem create_admin_user_is_idempotent :
  forall (env : Env) (name mail password : string) (w : World) (line : string),
    outcome (create_admin.create_admin_user env name mail password) w = Ok line ->
    outcome (create_admin.create_admin_user env name mail password)
            (after (create_admin.create_admin_user env name mail password) w)
    = Ok ("Admin user '" ++ name ++ "' already exists.")
    /\ after (create_admin.create_admin_user env name mail password)
             (after (create_admin.create_admin_user env name mail password) w)
       = after (create_admin.create_admin_user env name mail password) w
    /\ (forall existing,
          List.find (fun u => String.eqb (username u) name) (user_table w) = Some existing ->
          after (create_admin.create_admin_user env name mail password) w = w).
Proof.
  intros env name mail password w line Hok.
  assert (Hfound : exists existing,
             List.find (fun u => String.eqb (username u) name)
               (user_table (after (create_admin.create_admin_user env name mail password) w))
             = Some existing).
  { destruct (List.find (fun u => String.eqb (username u) name) (user_table w))
      as [existing |] eqn:Efind.
    - exists existing. unfold after. now rewrite (create_admin_user_existing _ _ _ _ _ _ Efind).
    - revert Hok. unfold outcome, after, create_admin.create_admin_user, session_first,
        where_eq, User_username, encoders.hash_password, session_add_commit, emit, lift.
      unfold bind, ret. cbv beta iota. rewrite Efind. cbv beta iota.
      destruct (passlib.hash (pwd_context env) password) as [hashed | e];
        cbv beta iota; [| discriminate].
      cbn [user_table user_id_seq events].
      destruct (table_accepts _ _); [| discriminate].
      intros _. eexists. cbn [snd user_table]. now apply find_app_new. }
  destruct Hfound as [existing Hfound].
  pose proof (create_admin_user_existing env name mail password _ _ Hfound) as Hsecond.
  split; [| split].
  - unfold outcome at 1. now rewrite Hsecond.
  - unfold after at 1. now rewrite Hsecond.
  - intros existing' Hfind. unfold after.
    now rewrite (create_admin_user_existing _ _ _ _ _ _ Hfind).
Qed.

Lemma create_admin_user_is_idempotent_witness :
  role demo.carol = USER
  /\ after (create_admin.create_admin_user demo.env "carol" "carol@example.org" "C4rol?pass")
           demo.world
     = demo.world.
Proof.
  split; [reflexivity |].
  destruct (create_admin_user_is_idempotent demo.env "carol" "carol@example.org"
              "C4rol?pass" demo.world "Admin user 'carol' already exists." eq_refl)
    as (_ & _ & Hnoop).
  apply (Hnoop demo.carol). reflexivity.
Defined.
